(** * python-mysql-replication: the binary decoding core

    A shallow embedding of [pymysqlreplication/protocol.py] (the primitive
    decoders of [StructMysql], the in-memory cursor [WrapperPayload], the
    binary-JSON and packed-decimal decoders of [WrapperJson]) and of
    [pymysqlreplication/packet.py] (the cursor with push-back and the event
    header parser of [BinLogPacketWrapper]), with the properties of the
    specification stated and settled against that code. *)

From Stdlib Require Import ZArith List Lia Bool String Ascii.
From Stdlib Require Import Strings.Byte DecimalString.
Import ListNotations.
Open Scope Z_scope.

(* ================================================================= *)
(** * Python values used by the code *)

(** A [bytes] object. *)
Definition bytes := list byte.

(** The integer an element of a [bytes] object stands for. *)
Definition byte2Z (b : byte) : Z := Z.of_N (Byte.to_N b).

(** Normalisation of one bound of a slice [l[lo:hi]]: a negative bound counts
    from the end, and every bound is clamped to [0 .. len]. *)
Definition slice_index (len i : Z) : Z :=
  if i <? 0 then Z.max (i + len) 0 else Z.min i len.

(** [l[lo:hi]]: never raises, returns what lies between the two bounds. *)
Definition py_slice {A : Type} (l : list A) (lo hi : Z) : list A :=
  let len := Z.of_nat (List.length l) in
  let lo' := slice_index len lo in
  let hi' := slice_index len hi in
  firstn (Z.to_nat (hi' - lo')) (skipn (Z.to_nat lo') l).

(** [str(n)] for an integer. *)
Definition py_str (n : Z) : string := NilZero.string_of_int (Z.to_int n).

Fixpoint zeros (n : nat) : string :=
  match n with
  | O => EmptyString
  | S n' => String "0" (zeros n')
  end.

(** ['%0*d' % (width, n)]: the sign, when there is one, comes first and counts
    in the width; zeros fill what is left. *)
Definition py_format_0d (width : nat) (n : Z) : string :=
  let digits := py_str (Z.abs n) in
  let sign := if n <? 0 then "-"%string else EmptyString in
  let used := (String.length sign + String.length digits)%nat in
  (sign ++ zeros (width - used) ++ digits)%string.

(** The exceptions the modelled code can raise. *)
Inductive exn : Type :=
| struct_error                    (* struct.error *)
| IndexError                      (* sequence index out of range *)
| TypeError                       (* operand of the wrong type, e.g. None ^ int *)
| AttributeError (name : string)  (* the object has no such attribute *)
| ValueError (msg : string)
| InvalidOperation                (* decimal.InvalidOperation *)
| PacketError.                    (* raised by the wrapped packet object *)

(** What running a piece of code gives: a value, an exception, or no answer
    within the given number of steps ([OutOfFuel] is not an exception and no
    handler catches it). *)
Inductive outcome (A : Type) : Type :=
| Ok (a : A)
| Raise (e : exn)
| OutOfFuel.
Arguments Ok {A} a.
Arguments Raise {A} e.
Arguments OutOfFuel {A}.

Definition outcome_bind {A B : Type} (o : outcome A) (k : A -> outcome B)
  : outcome B :=
  match o with
  | Ok a => k a
  | Raise e => Raise e
  | OutOfFuel => OutOfFuel
  end.

(** [l[i]] for a non-negative literal index. *)
Definition item {A : Type} (l : list A) (i : nat) : outcome A :=
  match nth_error l i with
  | Some a => Ok a
  | None => Raise IndexError
  end.

(** [l[i]] for a computed index: a negative index counts from the end. *)
Definition py_item {A : Type} (l : list A) (i : Z) : outcome A :=
  let len := Z.of_nat (List.length l) in
  let j := if i <? 0 then i + len else i in
  if (j <? 0) || (len <=? j) then Raise IndexError
  else item l (Z.to_nat j).

(* ================================================================= *)
(** * The [struct] module of the Python standard library *)

Module struct.

(** The byte order prefix of a format: ['<'] or ['>'] (['!'] is ['>']).
    A format of bytes only, such as ["BBB"], reads the same in any order. *)
Inductive byte_order : Type := LittleEndian | BigEndian.

(** The format characters the code uses. *)
Inductive code : Type :=
| fc | fb | fB | fh | fH | fi | fI | fl | fq | fQ | fd.

(** Standard sizes (the ones in force with a byte order prefix). *)
Definition size_of (f : code) : nat :=
  match f with
  | fc | fb | fB => 1
  | fh | fH => 2
  | fi | fI | fl => 4
  | fq | fQ | fd => 8
  end.

Definition signed (f : code) : bool :=
  match f with
  | fb | fh | fi | fl | fq => true
  | _ => false
  end.

Definition calcsize (fmt : list code) : nat :=
  fold_right (fun f n => (size_of f + n)%nat) O fmt.

(** Unsigned value of a byte string, least significant byte first. *)
Definition uint_le (bs : bytes) : Z :=
  fold_right (fun x acc => byte2Z x + 256 * acc) 0 bs.

(** Unsigned value of a byte string, most significant byte first. *)
Definition uint_be (bs : bytes) : Z :=
  fold_left (fun acc x => 256 * acc + byte2Z x) bs 0.

(** Two's complement reading of an unsigned [n]-byte value. *)
Definition to_signed (n : nat) (v : Z) : Z :=
  if 2 ^ (8 * Z.of_nat n - 1) <=? v then v - 2 ^ (8 * Z.of_nat n) else v.

(** One field. A ['c'] field is returned as the value of its byte (the code
    passes it to [byte2int] at once) and a ['d'] field as its 64-bit
    pattern: the model does not interpret floating point numbers. *)
Definition decode (o : byte_order) (f : code) (bs : bytes) : Z :=
  let u := match o with
           | LittleEndian => uint_le bs
           | BigEndian => uint_be bs
           end in
  if signed f then to_signed (size_of f) u else u.

Fixpoint fields (o : byte_order) (fmt : list code) (data : bytes) : list Z :=
  match fmt with
  | [] => []
  | f :: fmt' =>
      decode o f (firstn (size_of f) data)
        :: fields o fmt' (skipn (size_of f) data)
  end.

(** [struct.unpack(fmt, data)]: the buffer must have exactly the size of the
    format. *)
Definition unpack (o : byte_order) (fmt : list code) (data : bytes)
  : outcome (list Z) :=
  if (List.length data =? calcsize fmt)%nat then Ok (fields o fmt data)
  else Raise struct_error.

(** [struct.pack('<B', v)]. *)
Definition pack_B (v : Z) : outcome bytes :=
  match (if v <? 0 then None else Byte.of_N (Z.to_N v)) with
  | Some b => Ok [b]
  | None => Raise struct_error
  end.

End struct.
Import struct.

(** [pymysql.util.byte2int]: [struct.unpack("!B", b)[0]]. *)
Definition byte2int (b : bytes) : outcome Z :=
  outcome_bind (struct.unpack BigEndian [fB] b) (fun vs => item vs 0).

(* ================================================================= *)
(** * Stateful code: a state monad whose state survives an exception *)

Definition M (St A : Type) : Type := St -> outcome A * St.

Definition ret {St A : Type} (a : A) : M St A := fun s => (Ok a, s).

Definition bind {St A B : Type} (m : M St A) (k : A -> M St B) : M St B :=
  fun s =>
    match m s with
    | (Ok a, s') => k a s'
    | (Raise e, s') => (Raise e, s')
    | (OutOfFuel, s') => (OutOfFuel, s')
    end.

Definition raise {St A : Type} (e : exn) : M St A := fun s => (Raise e, s).

Definition out_of_fuel {St A : Type} : M St A := fun s => (OutOfFuel, s).

(** A pure computation that may raise, run inside stateful code. *)
Definition lift {St A : Type} (o : outcome A) : M St A := fun s => (o, s).

(** [try: m  except Exception: h]. *)
Definition try_except {St A : Type} (m : M St A) (h : exn -> M St A) : M St A :=
  fun s =>
    match m s with
    | (Raise e, s') => h e s'
    | r => r
    end.

Declare Scope monad_scope.
Delimit Scope monad_scope with monad.
Notation "x <- m ;; k" := (bind m (fun x => k))
  (at level 61, m at next level, right associativity) : monad_scope.
Notation "' pat <- m ;; k" :=
  (bind m (fun x => match x with pat => k end))
  (at level 61, pat pattern, m at next level, right associativity) : monad_scope.
Notation "m ;;; k" := (bind m (fun _ => k))
  (at level 61, right associativity) : monad_scope.
Open Scope monad_scope.

(** [[f(x) for x in l]]: left to right, the first exception ends it. *)
Fixpoint mapM {St A B : Type} (f : A -> M St B) (l : list A) : M St (list B) :=
  match l with
  | [] => ret []
  | x :: l' => y <- f x ;; ys <- mapM f l' ;; ret (y :: ys)
  end.

(** [[m for _ in range(n)]]. *)
Fixpoint replicateM {St A : Type} (n : nat) (m : M St A) : M St (list A) :=
  match n with
  | O => ret []
  | S n' => y <- m ;; ys <- replicateM n' m ;; ret (y :: ys)
  end.

(* ================================================================= *)
(** * Constants *)

(** Modelled from the spec: the module [pymysqlreplication.constants], from
    which [protocol.py] imports the prefixes of a length-coded integer, is not
    among the sources. Section 4.2 gives the values: the NULL sentinel 0xFB,
    values below 0xFB stand for themselves, 0xFC, 0xFD and 0xFE announce an
    unsigned integer of 2, 3 and 8 bytes. *)
Definition NULL_COLUMN : Z := 251.
Definition UNSIGNED_CHAR_COLUMN : Z := 251.
Definition UNSIGNED_SHORT_COLUMN : Z := 252.
Definition UNSIGNED_INT24_COLUMN : Z := 253.
Definition UNSIGNED_INT64_COLUMN : Z := 254.
Definition UNSIGNED_SHORT_LENGTH : nat := 2.
Definition UNSIGNED_INT24_LENGTH : nat := 3.
Definition UNSIGNED_INT64_LENGTH : nat := 8.

(** The type tags and literal codes of binary JSON come from the same missing
    module and the specification does not give their values: the decoder is
    written over any assignment of them. *)
Class JsonbConstants : Type := {
  JSONB_TYPE_SMALL_OBJECT : Z;
  JSONB_TYPE_LARGE_OBJECT : Z;
  JSONB_TYPE_SMALL_ARRAY : Z;
  JSONB_TYPE_LARGE_ARRAY : Z;
  JSONB_TYPE_LITERAL : Z;
  JSONB_TYPE_INT16 : Z;
  JSONB_TYPE_UINT16 : Z;
  JSONB_TYPE_INT32 : Z;
  JSONB_TYPE_UINT32 : Z;
  JSONB_TYPE_INT64 : Z;
  JSONB_TYPE_UINT64 : Z;
  JSONB_TYPE_DOUBLE : Z;
  JSONB_TYPE_STRING : Z;
  JSONB_TYPE_OPAQUE : Z;
  JSONB_LITERAL_NULL : Z;
  JSONB_LITERAL_TRUE : Z;
  JSONB_LITERAL_FALSE : Z
}.

(** The values MySQL's binary JSON format gives them (json_binary.h), used
    where a property is run on a concrete document. *)
Definition mysql_jsonb : JsonbConstants := {|
  JSONB_TYPE_SMALL_OBJECT := 0;
  JSONB_TYPE_LARGE_OBJECT := 1;
  JSONB_TYPE_SMALL_ARRAY := 2;
  JSONB_TYPE_LARGE_ARRAY := 3;
  JSONB_TYPE_LITERAL := 4;
  JSONB_TYPE_INT16 := 5;
  JSONB_TYPE_UINT16 := 6;
  JSONB_TYPE_INT32 := 7;
  JSONB_TYPE_UINT32 := 8;
  JSONB_TYPE_INT64 := 9;
  JSONB_TYPE_UINT64 := 10;
  JSONB_TYPE_DOUBLE := 11;
  JSONB_TYPE_STRING := 12;
  JSONB_TYPE_OPAQUE := 15;
  JSONB_LITERAL_NULL := 0;
  JSONB_LITERAL_TRUE := 1;
  JSONB_LITERAL_FALSE := 2
|}.

(* ================================================================= *)
(** * protocol.py: [class StructMysql] *)

(** What the methods of [StructMysql] call on [self]. [read] is overridden by
    every subclass. [unread] is looked up on the class of the object at run
    time: [BinLogPacketWrapper] defines it, [StructMysql] and [WrapperPayload]
    do not, and there the call raises [AttributeError]. *)
Class StructMysql (St : Type) : Type := {
  read : nat -> M St bytes;
  unread : bytes -> M St unit
}.

Section StructMysql_methods.
Context {St : Type} `{StructMysql St}.

(** [struct.unpack(fmt, data)[0]] on what was just read. *)
Definition unpack_first (o : byte_order) (f : code) (data : bytes) : M St Z :=
  vs <- lift (struct.unpack o [f] data) ;; lift (item vs 0).

Definition unpack_uint16 (n : bytes) : M St Z :=
  unpack_first LittleEndian fH (py_slice n 0 2).

(** An element of a [bytes] object is an integer, [struct.unpack('B', n[0])]
    raises [TypeError] and the handler computes the sum. *)
Definition unpack_int24 (n : bytes) : M St Z :=
  n0 <- lift (item n 0) ;; n1 <- lift (item n 1) ;; n2 <- lift (item n 2) ;;
  ret (byte2Z n0 + Z.shiftl (byte2Z n1) 8 + Z.shiftl (byte2Z n2) 16).

Definition unpack_int32 (n : bytes) : M St Z :=
  n0 <- lift (item n 0) ;; n1 <- lift (item n 1) ;; n2 <- lift (item n 2) ;;
  n3 <- lift (item n 3) ;;
  ret (byte2Z n0 + Z.shiftl (byte2Z n1) 8 + Z.shiftl (byte2Z n2) 16
       + Z.shiftl (byte2Z n3) 24).

Definition unpack_int64 (n : bytes) : M St Z :=
  n0 <- lift (item n 0) ;; n1 <- lift (item n 1) ;; n2 <- lift (item n 2) ;;
  n3 <- lift (item n 3) ;; n4 <- lift (item n 4) ;;
  ret (byte2Z n0 + Z.shiftl (byte2Z n1) 8 + Z.shiftl (byte2Z n2) 16
       + Z.shiftl (byte2Z n3) 24 + Z.shiftl (byte2Z n4) 32).

(** The result is [None] for the NULL prefix, and also when no branch
    returns (prefix 0xFF). *)
Definition read_length_coded_binary : M St (option Z) :=
  b <- read 1 ;;
  c <- lift (byte2int b) ;;
  if c =? NULL_COLUMN then ret None
  else if c <? UNSIGNED_CHAR_COLUMN then ret (Some c)
  else if c =? UNSIGNED_SHORT_COLUMN then
    n <- read UNSIGNED_SHORT_LENGTH ;; v <- unpack_uint16 n ;; ret (Some v)
  else if c =? UNSIGNED_INT24_COLUMN then
    n <- read UNSIGNED_INT24_LENGTH ;; v <- unpack_int24 n ;; ret (Some v)
  else if c =? UNSIGNED_INT64_COLUMN then
    n <- read UNSIGNED_INT64_LENGTH ;; v <- unpack_int64 n ;; ret (Some v)
  else ret None.

Definition read_int24_be : M St Z :=
  data <- read 3 ;;
  vs <- lift (struct.unpack LittleEndian [fB; fB; fB] data) ;;
  a <- lift (item vs 0) ;; b <- lift (item vs 1) ;; c <- lift (item vs 2) ;;
  let res := Z.lor (Z.lor (Z.shiftl a 16) (Z.shiftl b 8)) c in
  ret (if 0x800000 <=? res then res - 0x1000000 else res).

Definition read_int40_be : M St Z :=
  data <- read 5 ;;
  vs <- lift (struct.unpack BigEndian [fI; fB] data) ;;
  a <- lift (item vs 0) ;; b <- lift (item vs 1) ;;
  ret (b + Z.shiftl a 8).

(** The result is [None] when no branch returns. *)
Definition read_int_be_by_size (size : nat) : M St (option Z) :=
  match size with
  | 1%nat => data <- read size ;; v <- unpack_first BigEndian fb data ;; ret (Some v)
  | 2%nat => data <- read size ;; v <- unpack_first BigEndian fh data ;; ret (Some v)
  | 3%nat => v <- read_int24_be ;; ret (Some v)
  | 4%nat => data <- read size ;; v <- unpack_first BigEndian fi data ;; ret (Some v)
  | 5%nat => v <- read_int40_be ;; ret (Some v)
  | 8%nat => data <- read size ;; v <- unpack_first BigEndian fl data ;; ret (Some v)
  | _ => ret None
  end.

Definition read_uint8 : M St Z :=
  data <- read 1 ;; unpack_first LittleEndian fB data.

Definition read_int16 : M St Z :=
  data <- read 2 ;; unpack_first LittleEndian fh data.

Definition read_uint16 : M St Z :=
  data <- read 2 ;; unpack_first LittleEndian fH data.

Definition read_uint32 : M St Z :=
  data <- read 4 ;; unpack_first LittleEndian fI data.

Definition read_int32 : M St Z :=
  data <- read 4 ;; unpack_first LittleEndian fi data.

Definition read_uint64 : M St Z :=
  data <- read 8 ;; unpack_first LittleEndian fQ data.

Definition read_int64 : M St Z :=
  data <- read 8 ;; unpack_first LittleEndian fq data.

(** The [while] loop of [read_variable_length_string], entered with the
    current [byte], [length] and [bits_read]; it gives the final [length]. *)
Fixpoint read_variable_length_loop (fuel : nat) (byte length bits_read : Z)
  : M St Z :=
  if Z.land byte 0x80 =? 0 then ret length
  else
    match fuel with
    | O => out_of_fuel
    | S fuel' =>
        b <- read 1 ;;
        byte <- lift (byte2int b) ;;
        read_variable_length_loop fuel' byte
          (Z.lor length (Z.shiftl (Z.land byte 0x7f) bits_read))
          (bits_read + 7)
    end.

Definition read_variable_length_string (fuel : nat) : M St bytes :=
  length <- read_variable_length_loop fuel 0x80 0 0 ;;
  read (Z.to_nat length).

End StructMysql_methods.

(* ================================================================= *)
(** * [decimal.Decimal] *)

(** An exact decimal number: [(-1)^sign * coefficient * 10^exponent]. *)
Record Decimal : Type := {
  sign : bool;
  coefficient : Z;
  exponent : Z
}.

Definition digit_of (c : ascii) : option Z :=
  let n := Z.of_N (N_of_ascii c) in
  if (48 <=? n) && (n <=? 57) then Some (n - 48) else None.

(** Value and number of the digits of [s], when [s] holds digits only. *)
Fixpoint digits_of (s : string) (acc : Z) (count : nat) : option (Z * nat) :=
  match s with
  | EmptyString => Some (acc, count)
  | String c s' =>
      match digit_of c with
      | Some d => digits_of s' (10 * acc + d) (S count)
      | None => None
      end
  end.

(** The text before the first ["."] and the text after it, if there is one. *)
Fixpoint split_point (s : string) : string * option string :=
  match s with
  | EmptyString => (EmptyString, None)
  | String c s' =>
      if Ascii.eqb c "." then (EmptyString, Some s')
      else let (a, b) := split_point s' in (String c a, b)
  end.

(** [decimal.Decimal(s)] for the texts [read_new_decimal] builds: an optional
    ["-"], digits, ["."], digits, with one digit at least. Anything else is not
    a number. *)
Definition Decimal_of_string (s : string) : outcome Decimal :=
  let (neg, body) := match s with
                     | String "-" r => (true, r)
                     | _ => (false, s)
                     end in
  let (ip, fp) := split_point body in
  match digits_of ip 0 O with
  | None => Raise InvalidOperation
  | Some (iv, ic) =>
      match digits_of (match fp with Some f => f | None => EmptyString end) iv ic with
      | None => Raise InvalidOperation
      | Some (v, c) =>
          if (c =? 0)%nat then Raise InvalidOperation
          else Ok {| sign := neg;
                     coefficient := v;
                     exponent := match fp with
                                 | Some f => - Z.of_nat (String.length f)
                                 | None => 0
                                 end |}
      end
  end.

(* ================================================================= *)
(** * protocol.py: [WrapperJson.read_new_decimal]

    The body of the method, over the object it is called on. *)

Section read_new_decimal.
Context {St : Type} `{StructMysql St}.

(** [self.read_int_be_by_size(size) ^ mask]. *)
Definition read_int_be_xor (size : Z) (mask : Z) : M St Z :=
  v <- read_int_be_by_size (Z.to_nat size) ;;
  match v with
  | Some v => ret (Z.lxor v mask)
  | None => raise TypeError
  end.

(** [for i in range(0, n): value = struct.unpack('>i', self.read(4))[0] ^ mask;
    res += '%09d' % value]. *)
Fixpoint read_full_groups (n : nat) (mask : Z) (res : string) : M St string :=
  match n with
  | O => ret res
  | S n' =>
      data <- read 4 ;;
      v <- unpack_first BigEndian fi data ;;
      let value := Z.lxor v mask in
      read_full_groups n' mask (res ++ py_format_0d 9 value)
  end.

Definition read_new_decimal : M St Decimal :=
  precision <- read_uint8 ;;
  decimals <- read_uint8 ;;
  let digits_per_integer := 9 in
  let compressed_bytes := [0; 1; 1; 2; 2; 3; 3; 4; 4; 4] in
  let integral := precision - decimals in
  let uncomp_integral := Z.quot integral digits_per_integer in
  let uncomp_fractional := Z.quot decimals digits_per_integer in
  let comp_integral := integral - uncomp_integral * digits_per_integer in
  let comp_fractional := decimals - uncomp_fractional * digits_per_integer in
  value <- read_uint8 ;;
  let '(res, mask) := if negb (Z.land value 0x80 =? 0)
                      then (EmptyString, 0)
                      else ("-"%string, -1) in
  b <- lift (struct.pack_B (Z.lxor value 0x80)) ;;
  unread b ;;;
  size <- lift (py_item compressed_bytes comp_integral) ;;
  res <- (if 0 <? size
          then value <- read_int_be_xor size mask ;;
               ret (res ++ py_str value)%string
          else ret res) ;;
  res <- read_full_groups (Z.to_nat uncomp_integral) mask res ;;
  let res := (res ++ ".")%string in
  res <- read_full_groups (Z.to_nat uncomp_fractional) mask res ;;
  size <- lift (py_item compressed_bytes comp_fractional) ;;
  res <- (if 0 <? size
          then value <- read_int_be_xor size mask ;;
               ret (res ++ py_format_0d (Z.to_nat comp_fractional) value)%string
          else ret res) ;;
  lift (Decimal_of_string res).

End read_new_decimal.

(* ================================================================= *)
(** * protocol.py: [class WrapperPayload] *)

Record WrapperPayload : Type := {
  payload : bytes;
  point : Z
}.

Definition WrapperPayload_init (payload : bytes) : WrapperPayload :=
  {| payload := payload; point := 0 |}.

Definition set_point (p : Z) : M WrapperPayload unit :=
  fun self => (Ok tt, {| payload := payload self; point := p |}).

Definition get_point : M WrapperPayload Z :=
  fun self => (Ok (point self), self).

Definition get_payload : M WrapperPayload bytes :=
  fun self => (Ok (payload self), self).

(** [self.point += size; return self.payload[self.point-size:self.point]]. *)
Definition WrapperPayload_read (size : nat) : M WrapperPayload bytes :=
  p <- get_point ;;
  set_point (p + Z.of_nat size) ;;;
  p <- get_point ;;
  data <- get_payload ;;
  ret (py_slice data (p - Z.of_nat size) p).

Definition WrapperPayload_advance (size : nat) : M WrapperPayload unit :=
  p <- get_point ;; set_point (p + Z.of_nat size).

Definition WrapperPayload_rewind (size : nat) : M WrapperPayload unit :=
  p <- get_point ;; set_point (p - Z.of_nat size).

(** Neither [WrapperPayload] nor its base class defines [unread]. *)
#[export] Instance WrapperPayload_StructMysql : StructMysql WrapperPayload := {
  read := WrapperPayload_read;
  unread := fun _ => raise (AttributeError "unread")
}.

(* ================================================================= *)
(** * protocol.py: [class WrapperJson] *)

(** The values the JSON decoder returns. A [dict] keeps the order in which its
    keys were first set; a [float] is kept as its 64-bit pattern. *)
#[warnings="-register-all"]
Inductive json : Type :=
| JNone
| JBool (b : bool)
| JInt (n : Z)
| JFloat (bits : Z)
| JBytes (s : bytes)
| JDecimal (d : Decimal)
| JDict (d : list (bytes * json))
| JList (l : list json).

Fixpoint bytes_eqb (a b : bytes) : bool :=
  match a, b with
  | [], [] => true
  | x :: a', y :: b' => Byte.eqb x y && bytes_eqb a' b'
  | _, _ => false
  end.

(** [out[key] = data]. *)
Fixpoint dict_set (out : list (bytes * json)) (key : bytes) (data : json)
  : list (bytes * json) :=
  match out with
  | [] => [(key, data)]
  | (k, v) :: out' =>
      if bytes_eqb k key then (k, data) :: out'
      else (k, v) :: dict_set out' key data
  end.

(** [out[key]] when the key is there. *)
Fixpoint dict_get (out : list (bytes * json)) (key : bytes) : option json :=
  match out with
  | [] => None
  | (k, v) :: out' => if bytes_eqb k key then Some v else dict_get out' key
  end.

(** What [read_offset_or_inline] returns: the type tag, the offset ([None]
    for an inlined value) and the inlined value ([None] when there is none). *)
Definition slot : Type := (Z * option Z * json)%type.

Section WrapperJson.
Context {K : JsonbConstants}.

#[local] Abbreviation WJ := (M WrapperPayload).

Definition json_type_not_handled {A : Type} (t : Z) : WJ A :=
  raise (ValueError ("Json type " ++ py_str t ++ " is not handled")).

(** [read_variable_length_string] on a payload: the loop reads one byte of
    the payload at each turn, so the length of the payload bounds it. *)
Definition WrapperJson_read_variable_length_string : WJ bytes :=
  data <- get_payload ;;
  read_variable_length_string (S (List.length data)).

Definition read_opaque (length : Z) : WJ json :=
  t <- read_uint8 ;;
  if t =? 246 then d <- read_new_decimal ;; ret (JDecimal d)
  else raise (ValueError ("Json Opaque type " ++ py_str t ++ " is not handled")).

Definition read_binary_json_type_inlined (t : Z) (large : bool) : WJ json :=
  if t =? JSONB_TYPE_LITERAL then
    value <- (if large then read_uint32 else read_uint16) ;;
    if value =? JSONB_LITERAL_NULL then ret JNone
    else if value =? JSONB_LITERAL_TRUE then ret (JBool true)
    else if value =? JSONB_LITERAL_FALSE then ret (JBool false)
    else json_type_not_handled t
  else if t =? JSONB_TYPE_INT16 then v <- read_int16 ;; ret (JInt v)
  else if t =? JSONB_TYPE_UINT16 then v <- read_uint16 ;; ret (JInt v)
  else if t =? JSONB_TYPE_INT32 then v <- read_int32 ;; ret (JInt v)
  else if t =? JSONB_TYPE_UINT32 then v <- read_uint32 ;; ret (JInt v)
  else if t =? JSONB_TYPE_INT64 then v <- read_int64 ;; ret (JInt v)
  else if t =? JSONB_TYPE_UINT64 then v <- read_uint64 ;; ret (JInt v)
  else json_type_not_handled t.

Definition read_offset_or_inline (large : bool) : WJ slot :=
  t <- read_uint8 ;;
  if (t =? JSONB_TYPE_LITERAL) || (t =? JSONB_TYPE_INT16)
     || (t =? JSONB_TYPE_UINT16)
  then v <- read_binary_json_type_inlined t large ;; ret (t, None, v)
  else if large && ((t =? JSONB_TYPE_INT32) || (t =? JSONB_TYPE_UINT32))
  then v <- read_binary_json_type_inlined t large ;; ret (t, None, v)
  else if large then o <- read_uint32 ;; ret (t, Some o, JNone)
  else o <- read_uint16 ;; ret (t, Some o, JNone).

(** The first lines of both container decoders: the element count and the
    declared size. *)
Definition read_container_header (large : bool) : WJ (Z * Z) :=
  if large
  then elements <- read_uint32 ;; size <- read_uint32 ;; ret (elements, size)
  else elements <- read_uint16 ;; size <- read_uint16 ;; ret (elements, size).

Definition json_length_error {A : Type} : WJ A :=
  raise (ValueError "Json length is larger than packet length").

Section containers.
(** [self.read_binary_json_type], which both decoders call on the values
    that are not inlined. *)
Variable read_binary_json_type : Z -> Z -> WJ json.

(** The loop [for i in range(elements)] of the object decoder, from the
    index at the head of [range] on. *)
Fixpoint object_fields (length : Z) (keys : list bytes)
         (value_type_inlined_lengths : list slot) (range : list nat)
         (out : list (bytes * json)) : WJ (list (bytes * json)) :=
  match range with
  | [] => ret out
  | i :: range' =>
      key <- lift (item keys i) ;;
      field <- lift (item value_type_inlined_lengths i) ;;
      data <- (match field with
               | (_, None, inlined) => ret inlined
               | (t, Some _, _) =>
                   try_except (read_binary_json_type t length)
                              (fun _ => ret JNone)
               end) ;;
      object_fields length keys value_type_inlined_lengths range'
                    (dict_set out key data)
  end.

Definition read_binary_json_object (length : Z) (large : bool) : WJ json :=
  '(elements, size) <- read_container_header large ;;
  if length <? size then json_length_error
  else
    key_offset_lengths <-
      replicateM (Z.to_nat elements)
        (if large
         then o <- read_uint32 ;; l <- read_uint16 ;; ret (o + 1, l)
         else o <- read_uint16 ;; l <- read_uint16 ;; ret (o + 1, l)) ;;
    value_type_inlined_lengths <-
      replicateM (Z.to_nat elements) (read_offset_or_inline large) ;;
    first <- lift (item key_offset_lengths 0) ;;
    p <- get_point ;;
    (if p <? fst first then set_point (fst first) else ret tt) ;;;
    keys <- mapM (fun x => read (Z.to_nat (snd x))) key_offset_lengths ;;
    out <- object_fields length keys value_type_inlined_lengths
             (seq 0 (Z.to_nat elements)) [] ;;
    ret (JDict out).

(** The local function [_read] of the array decoder. *)
Definition array_read (length : Z) (x : slot) : WJ json :=
  match x with
  | (_, None, inlined) => ret inlined
  | (t, Some _, _) => read_binary_json_type t length
  end.

Definition read_binary_json_array (length : Z) (large : bool) : WJ json :=
  '(elements, size) <- read_container_header large ;;
  if length <? size then json_length_error
  else
    values_type_offset_inline <-
      replicateM (Z.to_nat elements) (read_offset_or_inline large) ;;
    l <- mapM (array_read length) values_type_offset_inline ;;
    ret (JList l).

End containers.

(** The body of [read_binary_json_type], over the decoder [nested] it calls
    on the values of a container. *)
Definition read_binary_json_type_body (nested : Z -> Z -> WJ json)
  (t : Z) (length : Z) : WJ json :=
  let large := (t =? JSONB_TYPE_LARGE_OBJECT) || (t =? JSONB_TYPE_LARGE_ARRAY) in
  if (t =? JSONB_TYPE_SMALL_OBJECT) || (t =? JSONB_TYPE_LARGE_OBJECT) then
    read_binary_json_object nested (length - 1) large
  else if (t =? JSONB_TYPE_SMALL_ARRAY) || (t =? JSONB_TYPE_LARGE_ARRAY) then
    read_binary_json_array nested (length - 1) large
  else if t =? JSONB_TYPE_STRING then
    s <- WrapperJson_read_variable_length_string ;; ret (JBytes s)
  else if t =? JSONB_TYPE_LITERAL then
    value <- read_uint8 ;;
    if value =? JSONB_LITERAL_NULL then ret JNone
    else if value =? JSONB_LITERAL_TRUE then ret (JBool true)
    else if value =? JSONB_LITERAL_FALSE then ret (JBool false)
    else json_type_not_handled t
  else if t =? JSONB_TYPE_INT16 then v <- read_int16 ;; ret (JInt v)
  else if t =? JSONB_TYPE_UINT16 then v <- read_uint16 ;; ret (JInt v)
  else if t =? JSONB_TYPE_DOUBLE then
    data <- read 8 ;; v <- unpack_first LittleEndian fd data ;; ret (JFloat v)
  else if t =? JSONB_TYPE_INT32 then v <- read_int32 ;; ret (JInt v)
  else if t =? JSONB_TYPE_UINT32 then v <- read_uint32 ;; ret (JInt v)
  else if t =? JSONB_TYPE_INT64 then v <- read_int64 ;; ret (JInt v)
  else if t =? JSONB_TYPE_UINT64 then v <- read_uint64 ;; ret (JInt v)
  else if t =? JSONB_TYPE_OPAQUE then read_opaque length
  else json_type_not_handled t.

(** [read_binary_json_type]: the method calls itself on the values of a
    container, and [fuel] bounds how deep containers may nest. *)
Fixpoint read_binary_json_type (fuel : nat) (t : Z) (length : Z) : WJ json :=
  read_binary_json_type_body
    (match fuel with
     | O => fun _ _ => out_of_fuel
     | S fuel' => read_binary_json_type fuel'
     end) t length.

End WrapperJson.

(* ================================================================= *)
(** * packet.py: [class BinLogPacketWrapper] *)

Definition UNSIGNED_CHAR_LENGTH : nat := 1.

(** The packet object the wrapper is built around ([from_packet], an object
    of the connection library): the wrapper calls its [read] and [advance]. *)
Class Packet (P : Type) : Type := {
  packet_read : nat -> M P bytes;
  packet_advance : nat -> M P unit
}.

(** The attributes of a wrapper. *)
Record BinLogPacketWrapper (P : Type) : Type := {
  read_bytes : Z;
  data_buffer : bytes;
  packet : P;
  timestamp : Z;
  event_type : Z;
  server_id : Z;
  event_size : Z;
  log_pos : Z;
  flags : Z
}.
Arguments read_bytes {P} _.
Arguments data_buffer {P} _.
Arguments packet {P} _.
Arguments timestamp {P} _.
Arguments event_type {P} _.
Arguments server_id {P} _.
Arguments event_size {P} _.
Arguments log_pos {P} _.
Arguments flags {P} _.

Section BinLogPacketWrapper_methods.
Context {P : Type} `{Packet P}.

#[local] Abbreviation W := (M (BinLogPacketWrapper P)).

Definition get_state {St : Type} : M St St := fun s => (Ok s, s).

(** [self.read_bytes += n]. *)
Definition add_read_bytes (n : Z) : W unit :=
  fun self =>
    (Ok tt, {| read_bytes := read_bytes self + n;
               data_buffer := data_buffer self;
               packet := packet self;
               timestamp := timestamp self;
               event_type := event_type self;
               server_id := server_id self;
               event_size := event_size self;
               log_pos := log_pos self;
               flags := flags self |}).

(** [self.data_buffer = b]. *)
Definition set_data_buffer (b : bytes) : W unit :=
  fun self =>
    (Ok tt, {| read_bytes := read_bytes self;
               data_buffer := b;
               packet := packet self;
               timestamp := timestamp self;
               event_type := event_type self;
               server_id := server_id self;
               event_size := event_size self;
               log_pos := log_pos self;
               flags := flags self |}).

Definition get_data_buffer : W bytes :=
  fun self => (Ok (data_buffer self), self).

(** A call of a method of [self.packet]. *)
Definition on_packet {A : Type} (m : M P A) : W A :=
  fun self =>
    let (r, p) := m (packet self) in
    (r, {| read_bytes := read_bytes self;
           data_buffer := data_buffer self;
           packet := p;
           timestamp := timestamp self;
           event_type := event_type self;
           server_id := server_id self;
           event_size := event_size self;
           log_pos := log_pos self;
           flags := flags self |}).

(** [__init__], up to the computation of [event_size_without_header], which
    it hands to the class of the event; the result is the new object and that
    size. The header is read from [from_packet] itself. *)
Definition BinLogPacketWrapper_init (from_packet : P) (use_checksum : bool)
  : outcome (BinLogPacketWrapper P * Z) :=
  fst ((header <- packet_read 20 ;;
        unpack <- lift (struct.unpack LittleEndian
                          [fc; fI; fc; fI; fI; fI; fH] header) ;;
        timestamp <- lift (item unpack 1) ;;
        event_type <- lift (item unpack 2) ;;
        server_id <- lift (item unpack 3) ;;
        event_size <- lift (item unpack 4) ;;
        log_pos <- lift (item unpack 5) ;;
        flags <- lift (item unpack 6) ;;
        let event_size_without_header :=
          if use_checksum then event_size - 23 else event_size - 19 in
        p <- get_state ;;
        ret ({| read_bytes := 0;
                data_buffer := [];
                packet := p;
                timestamp := timestamp;
                event_type := event_type;
                server_id := server_id;
                event_size := event_size;
                log_pos := log_pos;
                flags := flags |},
             event_size_without_header)) from_packet).

Definition BinLogPacketWrapper_read (size : nat) : W bytes :=
  add_read_bytes (Z.of_nat size) ;;;
  buffer <- get_data_buffer ;;
  if (0 <? List.length buffer)%nat then
    let data := firstn size buffer in
    set_data_buffer (skipn size buffer) ;;;
    if (List.length data =? size)%nat then ret data
    else
      rest <- on_packet (packet_read (size - List.length data)) ;;
      ret (data ++ rest)
  else on_packet (packet_read size).

Definition BinLogPacketWrapper_unread (data : bytes) : W unit :=
  add_read_bytes (- Z.of_nat (List.length data)) ;;;
  buffer <- get_data_buffer ;;
  set_data_buffer (buffer ++ data).

Definition BinLogPacketWrapper_advance (size : nat) : W unit :=
  add_read_bytes (Z.of_nat size) ;;;
  buffer <- get_data_buffer ;;
  let buffer_len := List.length buffer in
  if (0 <? buffer_len)%nat then
    set_data_buffer (skipn size buffer) ;;;
    if (buffer_len <? size)%nat
    then on_packet (packet_advance (size - buffer_len))
    else ret tt
  else on_packet (packet_advance size).

#[export] Instance BinLogPacketWrapper_StructMysql
  : StructMysql (BinLogPacketWrapper P) := {
  read := BinLogPacketWrapper_read;
  unread := BinLogPacketWrapper_unread
}.

(** The calls a consumer of the wrapper can make on its cursor. *)
Inductive call : Type :=
| call_read (size : nat)
| call_advance (size : nat)
| call_unread (data : bytes).

Definition run_call (c : call) : W unit :=
  match c with
  | call_read size => BinLogPacketWrapper_read size ;;; ret tt
  | call_advance size => BinLogPacketWrapper_advance size
  | call_unread data => BinLogPacketWrapper_unread data
  end.

(** What the call adds to the counter: [n] for a read or an advance of [n]
    bytes, [-k] for [k] bytes pushed back. *)
Definition call_net (c : call) : Z :=
  match c with
  | call_read size => Z.of_nat size
  | call_advance size => Z.of_nat size
  | call_unread data => - Z.of_nat (List.length data)
  end.

Fixpoint run_calls (cs : list call) : W unit :=
  match cs with
  | [] => ret tt
  | c :: cs' => run_call c ;;; run_calls cs'
  end.

End BinLogPacketWrapper_methods.

(** A packet held in memory that refuses to read or skip past its end, as the
    packet object of the connection library does. *)
Record ListPacket : Type := {
  packet_data : bytes;
  position : nat
}.

Definition ListPacket_read (size : nat) : M ListPacket bytes :=
  fun p =>
    let result := firstn size (skipn (position p) (packet_data p)) in
    if (List.length result =? size)%nat
    then (Ok result, {| packet_data := packet_data p;
                        position := position p + size |})
    else (Raise PacketError, p).

Definition ListPacket_advance (size : nat) : M ListPacket unit :=
  fun p =>
    if (position p + size <=? List.length (packet_data p))%nat
    then (Ok tt, {| packet_data := packet_data p;
                    position := position p + size |})
    else (Raise PacketError, p).

#[export] Instance ListPacket_Packet : Packet ListPacket := {
  packet_read := ListPacket_read;
  packet_advance := ListPacket_advance
}.

(* ================================================================= *)
(** * protocol.py: the other readers of [StructMysql] *)

Section StructMysql_other_methods.
Context {St : Type} `{StructMysql St}.

Definition read_int24 : M St Z :=
  data <- read 3 ;;
  vs <- lift (struct.unpack LittleEndian [fB; fB; fB] data) ;;
  a <- lift (item vs 0) ;; b <- lift (item vs 1) ;; c <- lift (item vs 2) ;;
  let res := Z.lor (Z.lor a (Z.shiftl b 8)) (Z.shiftl c 16) in
  ret (if 0x800000 <=? res then res - 0x1000000 else res).

Definition read_uint24 : M St Z :=
  data <- read 3 ;;
  vs <- lift (struct.unpack LittleEndian [fB; fB; fB] data) ;;
  a <- lift (item vs 0) ;; b <- lift (item vs 1) ;; c <- lift (item vs 2) ;;
  ret (a + Z.shiftl b 8 + Z.shiftl c 16).

Definition read_uint40 : M St Z :=
  data <- read 5 ;;
  vs <- lift (struct.unpack LittleEndian [fB; fI] data) ;;
  a <- lift (item vs 0) ;; b <- lift (item vs 1) ;;
  ret (a + Z.shiftl b 8).

Definition read_uint48 : M St Z :=
  data <- read 6 ;;
  vs <- lift (struct.unpack LittleEndian [fH; fH; fH] data) ;;
  a <- lift (item vs 0) ;; b <- lift (item vs 1) ;; c <- lift (item vs 2) ;;
  ret (a + Z.shiftl b 16 + Z.shiftl c 32).

Definition read_uint56 : M St Z :=
  data <- read 7 ;;
  vs <- lift (struct.unpack LittleEndian [fB; fH; fI] data) ;;
  a <- lift (item vs 0) ;; b <- lift (item vs 1) ;; c <- lift (item vs 2) ;;
  ret (a + Z.shiftl b 8 + Z.shiftl c 24).

(** The result is [None] when no branch returns. *)
Definition read_uint_by_size (size : nat) : M St (option Z) :=
  match size with
  | 1%nat => v <- read_uint8 ;; ret (Some v)
  | 2%nat => v <- read_uint16 ;; ret (Some v)
  | 3%nat => v <- read_uint24 ;; ret (Some v)
  | 4%nat => v <- read_uint32 ;; ret (Some v)
  | 5%nat => v <- read_uint40 ;; ret (Some v)
  | 6%nat => v <- read_uint48 ;; ret (Some v)
  | 7%nat => v <- read_uint56 ;; ret (Some v)
  | 8%nat => v <- read_uint64 ;; ret (Some v)
  | _ => ret None
  end.

(** [self.read(None)] raises [TypeError] before anything changes: [None] is
    added to the position, or passed to [int]. *)
Definition read_length_coded_pascal_string (size : nat) : M St bytes :=
  length <- read_uint_by_size size ;;
  match length with
  | Some length => read (Z.to_nat length)
  | None => raise TypeError
  end.

(** The cursor hands over the bytes [bs] one at a time, from [st] to [st']. *)
Inductive delivers : St -> bytes -> St -> Prop :=
| delivers_nil (st : St) : delivers st [] st
| delivers_cons (st st1 st2 : St) (b : byte) (bs : bytes) :
    read 1 st = (Ok [b], st1) ->
    delivers st1 bs st2 ->
    delivers st (b :: bs) st2.

End StructMysql_other_methods.

(** The length that a run of bytes spells in [read_variable_length_string]:
    seven bits a byte, the low bits first. *)
Definition varlen_value (bs : bytes) : Z :=
  fold_right (fun b acc => Z.land (byte2Z b) 0x7f + 128 * acc) 0 bs.

(** The byte has its top bit set: another byte of the length follows. *)
Definition continues (b : byte) : Prop := Z.land (byte2Z b) 0x80 <> 0.

(* ================================================================= *)
(** * Auxiliary notions of the statements *)

(** One entry of the key table of an object, as the object decoder reads it:
    the offset of the key, plus one, and the length of the key. *)
Definition read_key_offset_length (large : bool) : M WrapperPayload (Z * Z) :=
  if large
  then o <- read_uint32 ;; l <- read_uint16 ;; ret (o + 1, l)
  else o <- read_uint16 ;; l <- read_uint16 ;; ret (o + 1, l).

(** The cursor once the object decoder has moved it forward to [x], the
    offset of the first key, when that lies ahead. *)
Definition fast_forward (x : Z) (w : WrapperPayload) : WrapperPayload :=
  if point w <? x then {| payload := payload w; point := x |} else w.

(** What the specification says of the values of the fields of an object,
    taken in order from the cursor [w]: an inlined value is the value of its
    field; a stored value is decoded where the cursor is; when that decoding
    raises, the value of the field is [None] and the next field is taken
    from where the failed decoding left the cursor. *)
Inductive field_values (nested : Z -> Z -> M WrapperPayload json) (length : Z)
  : list (bytes * slot) -> WrapperPayload -> list (bytes * json)
    -> WrapperPayload -> Prop :=
| field_values_nil (w : WrapperPayload) :
    field_values nested length [] w [] w
| field_values_inlined (key : bytes) (t : Z) (v : json)
    (rest : list (bytes * slot)) (w w' : WrapperPayload)
    (vs : list (bytes * json)) :
    field_values nested length rest w vs w' ->
    field_values nested length ((key, (t, None, v)) :: rest) w
      ((key, v) :: vs) w'
| field_values_decoded (key : bytes) (t off : Z) (inlined v : json)
    (rest : list (bytes * slot)) (w w1 w' : WrapperPayload)
    (vs : list (bytes * json)) :
    nested t length w = (Ok v, w1) ->
    field_values nested length rest w1 vs w' ->
    field_values nested length ((key, (t, Some off, inlined)) :: rest) w
      ((key, v) :: vs) w'
| field_values_failed (key : bytes) (t off : Z) (inlined : json) (e : exn)
    (rest : list (bytes * slot)) (w w1 w' : WrapperPayload)
    (vs : list (bytes * json)) :
    nested t length w = (Raise e, w1) ->
    field_values nested length rest w1 vs w' ->
    field_values nested length ((key, (t, Some off, inlined)) :: rest) w
      ((key, JNone) :: vs) w'.

(** The [dict] in which the keys were set to their values, in order. *)
Definition dict_of (vs : list (bytes * json)) : list (bytes * json) :=
  fold_left (fun out kv => dict_set out (fst kv) (snd kv)) vs [].

(** The outcome of a call whose result is dropped. *)
Definition dropped {St A : Type} (r : outcome A * St) : outcome unit * St :=
  match r with
  | (Ok _, s) => (Ok tt, s)
  | (Raise e, s) => (Raise e, s)
  | (OutOfFuel, s) => (OutOfFuel, s)
  end.

(** A slot with its stored offset replaced by zero. *)
Definition forget_offset (x : slot) : slot :=
  match x with
  | (t, Some _, v) => (t, Some 0, v)
  | (t, None, v) => (t, None, v)
  end.

(* ================================================================= *)
(** * What a decoder keeps of a payload *)

(** The cursor is on the payload [pl], at the position [p0] or after it. *)
Definition at_least (pl : bytes) (p0 : Z) (w : WrapperPayload) : Prop :=
  payload w = pl /\ p0 <= point w.

(** Started where [I] holds, [m] returns or raises, within its fuel, and
    leaves the cursor where [I] holds. *)
Definition keeps {A : Type} (I : WrapperPayload -> Prop)
  (m : M WrapperPayload A) : Prop :=
  forall w, I w -> forall r w', m w = (r, w') -> r <> OutOfFuel /\ I w'.

(* ================================================================= *)
(** * Data of the examples *)

(** The header of the example of the specification: timestamp 1600000000,
    type 2, server id 1, event size 42, log position 1000, flags 0. *)
Definition example_header : bytes :=
  [x00; x00; x10; x5e; x5f; x02; x01; x00; x00; x00;
   x2a; x00; x00; x00; xe8; x03; x00; x00; x00; x00].

Definition packet_of (data : bytes) : ListPacket :=
  {| packet_data := data; position := 0 |}.

(** The wrapper the consumers of an event see once [__init__] has run on a
    packet holding [example_header] and then [body]. *)
Definition example_wrapper (body : bytes) : BinLogPacketWrapper ListPacket :=
  {| read_bytes := 0;
     data_buffer := [];
     packet := {| packet_data := example_header ++ body; position := 20 |};
     timestamp := 1600000000;
     event_type := 2;
     server_id := 1;
     event_size := 42;
     log_pos := 1000;
     flags := 0 |}.

(** A wrapper with two bytes pushed back, over the packet of the examples. *)
Definition buffered_wrapper (body : bytes) : BinLogPacketWrapper ListPacket :=
  {| read_bytes := 0;
     data_buffer := [x0a; x14];
     packet := {| packet_data := example_header ++ body; position := 20 |};
     timestamp := 1600000000;
     event_type := 2;
     server_id := 1;
     event_size := 42;
     log_pos := 1000;
     flags := 0 |}.

(** The packed form of 1234.5678 with precision 8 and scale 4, after the two
    bytes that give the precision and the scale: 1234 and 5678 on two bytes
    each, most significant byte first, the top bit of the first byte set. *)
Definition packed_1234_5678 : bytes := [x08; x04; x84; xd2; x16; x2e].

(** The packed form of -1234.5678: the same with every bit flipped. *)
Definition packed_minus_1234_5678 : bytes := [x08; x04; x7b; x2d; xe9; xd1].

(** A small object with two fields, after its type tag: the key ["a"] with a
    value stored at an offset and tagged 13, a tag no branch handles, and the
    key ["b"] with the inlined 16-bit integer 7. *)
Definition object_with_bad_field : bytes :=
  [x00;
   x02; x00; x14; x00;
   x12; x00; x01; x00; x13; x00; x01; x00;
   x0d; x14; x00; x05; x07; x00;
   x61; x62].

(** A small array with the same two slots. *)
Definition array_with_bad_element : bytes :=
  [x02;
   x02; x00; x0a; x00;
   x0d; x0a; x00; x05; x07; x00].


(* ================================================================= *)
(** * Lemmas on the monad and on [struct] *)

Arguments byte2Z : simpl never.

Lemma bind_Ok {St A B : Type} (m : M St A) (k : A -> M St B) s a s' :
  m s = (Ok a, s') -> bind m k s = k a s'.
Proof. intros E. unfold bind. now rewrite E. Qed.

Lemma bind_Raise {St A B : Type} (m : M St A) (k : A -> M St B) s e s' :
  m s = (Raise e, s') -> bind m k s = (Raise e, s').
Proof. intros E. unfold bind. now rewrite E. Qed.

Lemma bind_OutOfFuel {St A B : Type} (m : M St A) (k : A -> M St B) s s' :
  m s = (OutOfFuel, s') -> bind m k s = (OutOfFuel, s').
Proof. intros E. unfold bind. now rewrite E. Qed.

Lemma bind_lift_Ok {St A B : Type} (a : A) (k : A -> M St B) s :
  bind (lift (Ok a)) k s = k a s.
Proof. reflexivity. Qed.

Lemma bind_ret {St A B : Type} (a : A) (k : A -> M St B) s :
  bind (ret a) k s = k a s.
Proof. reflexivity. Qed.

(** A run of [bind m k] that ends well went through a run of [m] that did. *)
Lemma bind_Ok_inv {St A B : Type} (m : M St A) (k : A -> M St B) s b s2 :
  bind m k s = (Ok b, s2) ->
  exists a s1, m s = (Ok a, s1) /\ k a s1 = (Ok b, s2).
Proof.
  unfold bind. destruct (m s) as [[a | e |] s1]; intros E.
  - now exists a, s1.
  - discriminate.
  - discriminate.
Qed.

Lemma byte2Z_range (b : byte) : 0 <= byte2Z b < 256.
Proof.
  unfold byte2Z. pose proof (Byte.to_N_bounded b). lia.
Qed.

Lemma uint_le_cons (b : byte) (bs : bytes) :
  uint_le (b :: bs) = byte2Z b + 256 * uint_le bs.
Proof. reflexivity. Qed.

Lemma uint_le_nil : uint_le [] = 0.
Proof. reflexivity. Qed.

Lemma uint_be_fold (bs : bytes) (acc : Z) :
  fold_left (fun a x => 256 * a + byte2Z x) bs acc
  = acc * 256 ^ Z.of_nat (List.length bs) + uint_be bs.
Proof.
  unfold uint_be. revert acc.
  induction bs as [| b bs IH]; intros acc.
  - simpl. lia.
  - cbn [fold_left List.length]. rewrite IH, (IH (256 * 0 + byte2Z b)).
    rewrite Nat2Z.inj_succ, Z.pow_succ_r by lia. ring.
Qed.

Lemma uint_be_cons (b : byte) (bs : bytes) :
  uint_be (b :: bs) = byte2Z b * 256 ^ Z.of_nat (List.length bs) + uint_be bs.
Proof.
  unfold uint_be at 1. cbn [fold_left]. rewrite uint_be_fold. ring.
Qed.

Lemma uint_be_nil : uint_be [] = 0.
Proof. reflexivity. Qed.

Lemma uint_be_range (bs : bytes) :
  0 <= uint_be bs < 256 ^ Z.of_nat (List.length bs).
Proof.
  induction bs as [| b bs IH].
  - cbn. lia.
  - rewrite uint_be_cons. cbn [List.length].
    rewrite Nat2Z.inj_succ, Z.pow_succ_r by lia.
    pose proof (byte2Z_range b). nia.
Qed.

(* ================================================================= *)
(** * The event header (packet.py, [__init__]) *)

(** C3. Whatever the 20 bytes the packet hands over, [__init__] drops the
    first, reads the timestamp (4 bytes), the event type (1), the server id
    (4), the event size (4), the log position (4) and the flags (2), each
    least significant byte first, and takes as body length the event size
    minus 23 when a checksum is in use and minus 19 when not. *)
Theorem header_layout_and_body_length
  (P : Type) (PK : Packet P) (from_packet p' : P) (use_checksum : bool)
  (b0 b1 b2 b3 b4 b5 b6 b7 b8 b9 b10 b11 b12 b13 b14 b15 b16 b17 b18 b19 : byte) :
  packet_read 20 from_packet
  = (Ok [b0; b1; b2; b3; b4; b5; b6; b7; b8; b9; b10; b11; b12; b13; b14; b15;
         b16; b17; b18; b19], p') ->
  exists self body,
    BinLogPacketWrapper_init from_packet use_checksum = Ok (self, body)
    /\ timestamp self
       = byte2Z b1 + 2^8 * byte2Z b2 + 2^16 * byte2Z b3 + 2^24 * byte2Z b4
    /\ event_type self = byte2Z b5
    /\ server_id self
       = byte2Z b6 + 2^8 * byte2Z b7 + 2^16 * byte2Z b8 + 2^24 * byte2Z b9
    /\ event_size self
       = byte2Z b10 + 2^8 * byte2Z b11 + 2^16 * byte2Z b12 + 2^24 * byte2Z b13
    /\ log_pos self
       = byte2Z b14 + 2^8 * byte2Z b15 + 2^16 * byte2Z b16 + 2^24 * byte2Z b17
    /\ flags self = byte2Z b18 + 2^8 * byte2Z b19
    /\ body = (if use_checksum then event_size self - 23
               else event_size self - 19).
Proof.
  intros Hread.
  unfold BinLogPacketWrapper_init.
  rewrite (bind_Ok _ _ _ _ _ Hread).
  cbn [bind lift struct.unpack List.length calcsize fold_right size_of Nat.add
       Nat.eqb fields firstn skipn item nth_error ret get_state fst].
  eexists. eexists. split; [reflexivity |].
  cbn [timestamp event_type server_id event_size log_pos flags].
  unfold decode. cbn [signed size_of].
  rewrite !uint_le_cons, !uint_le_nil.
  repeat split; try lia.
Qed.

Lemma header_layout_and_body_length_witness :
  exists self body,
    BinLogPacketWrapper_init (packet_of example_header) true = Ok (self, body)
    /\ timestamp self
       = byte2Z x00 + 2^8 * byte2Z x10 + 2^16 * byte2Z x5e + 2^24 * byte2Z x5f
    /\ event_type self = byte2Z x02
    /\ server_id self
       = byte2Z x01 + 2^8 * byte2Z x00 + 2^16 * byte2Z x00 + 2^24 * byte2Z x00
    /\ event_size self
       = byte2Z x2a + 2^8 * byte2Z x00 + 2^16 * byte2Z x00 + 2^24 * byte2Z x00
    /\ log_pos self
       = byte2Z xe8 + 2^8 * byte2Z x03 + 2^16 * byte2Z x00 + 2^24 * byte2Z x00
    /\ flags self = byte2Z x00 + 2^8 * byte2Z x00
    /\ body = (if true then event_size self - 23 else event_size self - 19).
Proof.
  apply (header_layout_and_body_length ListPacket ListPacket_Packet
           (packet_of example_header)
           {| packet_data := example_header; position := 20 |} true
           x00 x00 x10 x5e x5f x02 x01 x00 x00 x00
           x2a x00 x00 x00 xe8 x03 x00 x00 x00 x00).
  reflexivity.
Defined.

(** The example of the specification: a body of 23 bytes without checksum and
    of 19 bytes with one. *)
Example header_example :
  forall use_checksum,
    BinLogPacketWrapper_init (packet_of example_header) use_checksum
    = Ok ({| read_bytes := 0;
             data_buffer := [];
             packet := {| packet_data := example_header; position := 20 |};
             timestamp := 1600000000;
             event_type := 2;
             server_id := 1;
             event_size := 42;
             log_pos := 1000;
             flags := 0 |},
          if use_checksum then 19 else 23).
Proof. intros [|]; reflexivity. Qed.

(* ================================================================= *)
(** * The cursor of [BinLogPacketWrapper] *)

Section BinLogPacketWrapper_facts.
Context {P : Type} `{Packet P}.

Ltac run_wrapper :=
  unfold BinLogPacketWrapper_read, BinLogPacketWrapper_unread,
    BinLogPacketWrapper_advance, bind, add_read_bytes, get_data_buffer,
    set_data_buffer, on_packet, ret;
  cbn [read_bytes data_buffer packet].

Ltac split_wrapper :=
  repeat (cbn [read_bytes data_buffer packet];
          match goal with
          | |- context [if ?c then _ else _] => destruct c
          | |- context [packet_read ?n ?p] =>
              destruct (packet_read n p) as [[? | ? |] ?]
          | |- context [packet_advance ?n ?p] =>
              destruct (packet_advance n p) as [[? | ? |] ?]
          end).

(** Whatever comes of it, [read(size)] has added [size] to the counter. *)
Lemma read_adds_size (size : nat) (self self' : BinLogPacketWrapper P) r :
  BinLogPacketWrapper_read size self = (r, self') ->
  read_bytes self' = read_bytes self + Z.of_nat size.
Proof.
  run_wrapper. split_wrapper; intros E; inversion E; reflexivity.
Qed.

Lemma advance_adds_size (size : nat) (self self' : BinLogPacketWrapper P) r :
  BinLogPacketWrapper_advance size self = (r, self') ->
  read_bytes self' = read_bytes self + Z.of_nat size.
Proof.
  run_wrapper. split_wrapper; intros E; inversion E; reflexivity.
Qed.

(** [unread(data)] puts [data] at the end of the buffer and takes its length
    off the counter. *)
Lemma unread_appends (data : bytes) (self : BinLogPacketWrapper P) :
  exists self',
    BinLogPacketWrapper_unread data self = (Ok tt, self')
    /\ data_buffer self' = data_buffer self ++ data
    /\ read_bytes self' = read_bytes self - Z.of_nat (List.length data)
    /\ packet self' = packet self.
Proof.
  eexists. run_wrapper. split; [reflexivity |].
  cbn [read_bytes data_buffer packet]. repeat split.
Qed.

Lemma run_call_net (c : call) (self self' : BinLogPacketWrapper P) r :
  run_call c self = (r, self') ->
  read_bytes self' = read_bytes self + call_net c.
Proof.
  destruct c as [size | size | data]; cbn [run_call call_net].
  - unfold bind at 1.
    destruct (BinLogPacketWrapper_read size self) as [[a | e |] s1] eqn:E;
      intros E'; inversion E'; subst; eapply read_adds_size; eassumption.
  - apply advance_adds_size.
  - destruct (unread_appends data self) as (s' & E & _ & Hc & _).
    rewrite E. intros E'. inversion E'. subst. lia.
Qed.

Lemma run_calls_net (cs : list call) (self self' : BinLogPacketWrapper P) :
  run_calls cs self = (Ok tt, self') ->
  read_bytes self' = read_bytes self + fold_right Z.add 0 (map call_net cs).
Proof.
  revert self. induction cs as [| c cs IH]; intros self; cbn [run_calls map fold_right].
  - intros E. inversion E. lia.
  - unfold bind at 1.
    destruct (run_call c self) as [[[] | e |] s1] eqn:E; try discriminate.
    intros E'. apply IH in E'. apply run_call_net in E. lia.
Qed.

(** What [__init__] leaves: a counter at zero and an empty buffer, and a
    packet from which the 20 bytes of the header are gone. *)
Lemma init_state (from_packet : P) (use_checksum : bool)
  (self : BinLogPacketWrapper P) (body : Z) :
  BinLogPacketWrapper_init from_packet use_checksum = Ok (self, body) ->
  read_bytes self = 0 /\ data_buffer self = []
  /\ exists header,
       packet_read 20 from_packet = (Ok header, packet self)
       /\ List.length header = 20%nat.
Proof.
  unfold BinLogPacketWrapper_init, bind.
  destruct (packet_read 20 from_packet) as [[header | e |] p]; try discriminate.
  unfold lift at 1. unfold struct.unpack.
  destruct (List.length header =? _)%nat eqn:L; try discriminate.
  cbn [fields item nth_error lift ret get_state fst].
  intros E. inversion E. cbn [read_bytes data_buffer packet].
  repeat split. exists header. split; [reflexivity |].
  apply Nat.eqb_eq in L. exact L.
Qed.

End BinLogPacketWrapper_facts.

(** The in-memory packet hands over exactly what it is asked for, or raises. *)
Lemma ListPacket_read_exact (n : nat) (p : ListPacket) (bs : bytes)
  (p' : ListPacket) :
  packet_read n p = (Ok bs, p') -> List.length bs = n.
Proof.
  cbn [packet_read ListPacket_Packet]. unfold ListPacket_read.
  destruct (List.length _ =? n)%nat eqn:L; intros E; inversion E.
  subst. now apply Nat.eqb_eq in L.
Qed.

Lemma example_wrapper_init (body : bytes) :
  BinLogPacketWrapper_init (packet_of (example_header ++ body)) false
  = Ok (example_wrapper body, 23).
Proof. reflexivity. Qed.

(** C5, as amended. The counter is at zero when [__init__] returns, although
    the 20 bytes of the header have been taken from the packet: they are read
    from the packet itself and not through the wrapper. From then on every
    [read(n)] and [advance(n)] adds [n] and every [unread] of [k] bytes takes
    [k] off. *)
Theorem read_bytes_counts_calls_after_header
  (P : Type) (PK : Packet P) (from_packet : P) (use_checksum : bool)
  (self self' : BinLogPacketWrapper P) (body : Z) (cs : list call) :
  BinLogPacketWrapper_init from_packet use_checksum = Ok (self, body) ->
  run_calls cs self = (Ok tt, self') ->
  (exists header,
      packet_read 20 from_packet = (Ok header, packet self)
      /\ List.length header = 20%nat)
  /\ read_bytes self = 0
  /\ read_bytes self' = fold_right Z.add 0 (map call_net cs).
Proof.
  intros Hinit Hrun.
  destruct (init_state _ _ _ _ Hinit) as (H0 & _ & Hhdr).
  apply run_calls_net in Hrun.
  repeat split; [exact Hhdr | exact H0 | lia].
Qed.

Lemma read_bytes_counts_calls_after_header_witness :
  (exists header,
      packet_read 20 (packet_of (example_header ++ [x0a; x14; x1e; x28; x32]))
      = (Ok header, packet (example_wrapper [x0a; x14; x1e; x28; x32]))
      /\ List.length header = 20%nat)
  /\ read_bytes (example_wrapper [x0a; x14; x1e; x28; x32]) = 0
  /\ read_bytes
       {| read_bytes := 5;
          data_buffer := [];
          packet := {| packet_data := example_header ++ [x0a; x14; x1e; x28; x32];
                       position := 25 |};
          timestamp := 1600000000;
          event_type := 2;
          server_id := 1;
          event_size := 42;
          log_pos := 1000;
          flags := 0 |}
     = fold_right Z.add 0
         (map call_net [call_read 5; call_unread [x0a; x14]; call_read 2]).
Proof.
  apply (read_bytes_counts_calls_after_header ListPacket ListPacket_Packet
           (packet_of (example_header ++ [x0a; x14; x1e; x28; x32])) false
           (example_wrapper [x0a; x14; x1e; x28; x32]) _ 23
           [call_read 5; call_unread [x0a; x14]; call_read 2]).
  - reflexivity.
  - reflexivity.
Defined.

(** C5, as stated, fails: after [__init__] on a packet that holds a header
    only, the header is consumed and the counter is 0, not 20. *)
Lemma header_bytes_not_counted :
  match BinLogPacketWrapper_init (packet_of example_header) false with
  | Ok (self, _) =>
      position (packet self) = 20%nat /\ read_bytes self = 0
      /\ read_bytes self <> 20
  | _ => False
  end.
Proof. cbn. repeat split. discriminate. Qed.

(** On an empty buffer, what is pushed back is what the next read returns. *)
Lemma unread_then_read_empty_buffer
  (P : Type) (PK : Packet P) (self : BinLogPacketWrapper P) (b : bytes) :
  data_buffer self = [] -> b <> [] ->
  exists self',
    (BinLogPacketWrapper_unread b ;;; BinLogPacketWrapper_read (List.length b))
      self = (Ok b, self')
    /\ data_buffer self' = [] /\ read_bytes self' = read_bytes self
    /\ packet self' = packet self.
Proof.
  intros Hbuf Hb. eexists.
  unfold BinLogPacketWrapper_read, BinLogPacketWrapper_unread,
    bind, add_read_bytes, get_data_buffer, set_data_buffer, on_packet, ret.
  cbn [read_bytes data_buffer packet]. rewrite Hbuf. cbn [app].
  assert (Hlen : (0 <? List.length b)%nat = true)
    by (destruct b; [contradiction | reflexivity]).
  rewrite Hlen, firstn_all, Nat.eqb_refl, skipn_all.
  split; [reflexivity |]. cbn [read_bytes data_buffer packet].
  repeat split. lia.
Qed.

(** The example of the specification: [read(5)], push back the first two
    bytes, [read(2)] returns them and the counter ends at 5. *)
Example read_unread_read_example :
  (data <- BinLogPacketWrapper_read 5 ;;
   BinLogPacketWrapper_unread (firstn 2 data) ;;;
   again <- BinLogPacketWrapper_read 2 ;;
   n <- (fun self => (Ok (read_bytes self), self)) ;;
   ret (data, again, n)) (example_wrapper [x0a; x14; x1e; x28; x32])
  = (Ok ([x0a; x14; x1e; x28; x32], [x0a; x14], 5),
     {| read_bytes := 5;
        data_buffer := [];
        packet := {| packet_data := example_header ++ [x0a; x14; x1e; x28; x32];
                     position := 25 |};
        timestamp := 1600000000;
        event_type := 2;
        server_id := 1;
        event_size := 42;
        log_pos := 1000;
        flags := 0 |}).
Proof. reflexivity. Qed.

(** C4 at a buffer that is not empty. Two bytes are read and pushed back, the
    first is read again and pushed back again: the buffer then holds the
    second byte followed by the first, and the next [read(1)] returns the
    second byte, not the one just pushed back. *)
Theorem unread_on_nonempty_buffer_is_read_last :
  fst ((data <- BinLogPacketWrapper_read 2 ;;
        BinLogPacketWrapper_unread data ;;;
        first <- BinLogPacketWrapper_read 1 ;;
        BinLogPacketWrapper_unread first ;;;
        buffer <- get_data_buffer ;;
        next <- BinLogPacketWrapper_read 1 ;;
        ret (first, buffer, next)) (example_wrapper [x0a; x14; x1e]))
  = Ok ([x0a], [x14; x0a], [x14]).
Proof. reflexivity. Qed.

(* ================================================================= *)
(** * Short reads *)

Lemma firstn_min_length {A : Type} (n : nat) (l : list A) :
  firstn (Nat.min n (List.length l)) l = firstn n l.
Proof.
  destruct (Nat.le_ge_cases n (List.length l)) as [Hle | Hge].
  - now rewrite Nat.min_l.
  - rewrite Nat.min_r by exact Hge.
    now rewrite firstn_all, firstn_all2.
Qed.

(** A slice that starts at a position which is not negative. *)
Lemma py_slice_from {A : Type} (l : list A) (lo : Z) (n : nat) :
  0 <= lo ->
  py_slice l lo (lo + Z.of_nat n) = firstn n (skipn (Z.to_nat lo) l).
Proof.
  intros Hlo. unfold py_slice, slice_index.
  destruct (Z.ltb_spec lo 0) as [? | _]; [lia |].
  destruct (Z.ltb_spec (lo + Z.of_nat n) 0) as [? | _]; [lia |].
  destruct (Z.le_gt_cases lo (Z.of_nat (List.length l))) as [Hin | Hout].
  - rewrite (Z.min_l lo) by exact Hin.
    rewrite <- (firstn_min_length n). rewrite length_skipn. f_equal. lia.
  - rewrite (Z.min_r lo) by lia. rewrite Nat2Z.id, skipn_all.
    rewrite skipn_all2 by lia. now rewrite !firstn_nil.
Qed.

Lemma WrapperPayload_read_eq (size : nat) (w : WrapperPayload) :
  WrapperPayload_read size w
  = (Ok (py_slice (payload w) (point w) (point w + Z.of_nat size)),
     {| payload := payload w; point := point w + Z.of_nat size |}).
Proof.
  unfold WrapperPayload_read, bind, get_point, set_point, get_payload, ret.
  cbn [payload point]. now rewrite Z.add_simpl_r.
Qed.

(** C6, as amended. [BinLogPacketWrapper.read(size)] returns exactly [size]
    bytes or does not return, provided the read of the packet it wraps does
    so. [WrapperPayload.read(size)] never raises: it returns the bytes of
    the payload between the position and the position plus [size], which
    are fewer than [size] when the payload ends before. *)
Theorem read_exact_through_wrapper_clipped_on_payload
  (P : Type) (PK : Packet P)
  (Hexact : forall n p bs p',
      packet_read n p = (Ok bs, p') -> List.length bs = n) :
  (forall size (self self' : BinLogPacketWrapper P) bs,
      BinLogPacketWrapper_read size self = (Ok bs, self') ->
      List.length bs = size)
  /\ (forall size (w : WrapperPayload),
         WrapperPayload_read size w
         = (Ok (py_slice (payload w) (point w) (point w + Z.of_nat size)),
            {| payload := payload w; point := point w + Z.of_nat size |}))
  /\ (forall size (w : WrapperPayload),
         0 <= point w ->
         List.length (py_slice (payload w) (point w) (point w + Z.of_nat size))
         = Nat.min size (List.length (payload w) - Z.to_nat (point w))).
Proof.
  split; [| split].
  - intros size self self' bs.
    unfold BinLogPacketWrapper_read, bind, add_read_bytes, get_data_buffer,
      set_data_buffer, on_packet, ret.
    cbn [read_bytes data_buffer packet].
    destruct (0 <? List.length (data_buffer self))%nat.
    + destruct (List.length (firstn size (data_buffer self)) =? size)%nat eqn:L.
      * intros E. inversion E. subst. now apply Nat.eqb_eq in L.
      * cbn [read_bytes data_buffer packet].
        destruct (packet_read (size - List.length (firstn size (data_buffer self)))
                    (packet self)) as [[rest | e |] p'] eqn:R;
          intros E; inversion E. subst.
        apply Hexact in R. rewrite length_app, R.
        pose proof (firstn_le_length size (data_buffer self)). lia.
    + cbn [read_bytes data_buffer packet].
      destruct (packet_read size (packet self)) as [[rest | e |] p'] eqn:R;
        intros E; inversion E. subst. now apply Hexact in R.
  - exact WrapperPayload_read_eq.
  - intros size w Hp. rewrite py_slice_from by exact Hp.
    now rewrite length_firstn, length_skipn.
Qed.

Lemma read_exact_through_wrapper_clipped_on_payload_witness :
  (forall size (self self' : BinLogPacketWrapper ListPacket) bs,
      BinLogPacketWrapper_read size self = (Ok bs, self') ->
      List.length bs = size)
  /\ (forall size (w : WrapperPayload),
         WrapperPayload_read size w
         = (Ok (py_slice (payload w) (point w) (point w + Z.of_nat size)),
            {| payload := payload w; point := point w + Z.of_nat size |}))
  /\ (forall size (w : WrapperPayload),
         0 <= point w ->
         List.length (py_slice (payload w) (point w) (point w + Z.of_nat size))
         = Nat.min size (List.length (payload w) - Z.to_nat (point w))).
Proof.
  apply (read_exact_through_wrapper_clipped_on_payload
           ListPacket ListPacket_Packet).
  exact ListPacket_read_exact.
Defined.

(** C6, as stated, fails on the payload cursor: asked for 5 bytes of a payload
    of 3, [read] returns the 3 bytes and raises nothing. *)
Lemma WrapperPayload_read_is_short :
  fst (WrapperPayload_read 5 (WrapperPayload_init [x01; x02; x03]))
  = Ok [x01; x02; x03]
  /\ List.length [x01; x02; x03] <> 5%nat.
Proof. split; [reflexivity | discriminate]. Qed.

(* ================================================================= *)
(** * Length-coded integers *)

Lemma byte2int_single (b : byte) : byte2int [b] = Ok (byte2Z b).
Proof.
  unfold byte2int, struct.unpack. cbn. unfold decode, uint_be. cbn.
  f_equal.
Qed.

Section length_coded_binary.
Context {St : Type} `{StructMysql St}.

(** Unpacking one field from a buffer of the size of the field. *)
Lemma unpack_first_exact (o : byte_order) (f : code) (data : bytes) (st : St) :
  List.length data = size_of f ->
  unpack_first o f data st = (Ok (decode o f data), st).
Proof.
  intros L. unfold unpack_first, struct.unpack, calcsize.
  cbn [fold_right]. rewrite Nat.add_0_r, L, Nat.eqb_refl.
  rewrite bind_lift_Ok. cbn [fields item nth_error lift].
  now rewrite <- L, firstn_all.
Qed.

(** Unpacking one field from a buffer of another size. *)
Lemma unpack_first_wrong_size (o : byte_order) (f : code) (data : bytes)
  (st : St) :
  List.length data <> size_of f ->
  unpack_first o f data st = (Raise struct_error, st).
Proof.
  intros L. unfold unpack_first, struct.unpack, calcsize.
  cbn [fold_right]. rewrite Nat.add_0_r.
  apply Nat.eqb_neq in L. rewrite L. reflexivity.
Qed.

(** What [read_length_coded_binary] returns after each prefix, for the byte
    strings the cursor hands over: nothing for 0xFB, the prefix itself below
    0xFB, the two or three bytes that follow, least significant first, for
    0xFC and 0xFD; for 0xFE eight bytes are read and the first five make the
    value. *)
Lemma read_length_coded_binary_cases (st st1 : St) (c : byte) :
  read 1 st = (Ok [c], st1) ->
  (byte2Z c = 251 -> read_length_coded_binary st = (Ok None, st1))
  /\ (byte2Z c < 251 ->
      read_length_coded_binary st = (Ok (Some (byte2Z c)), st1))
  /\ (byte2Z c = 252 ->
      forall b0 b1 st2,
        read 2 st1 = (Ok [b0; b1], st2) ->
        read_length_coded_binary st
        = (Ok (Some (byte2Z b0 + 2^8 * byte2Z b1)), st2))
  /\ (byte2Z c = 253 ->
      forall b0 b1 b2 st2,
        read 3 st1 = (Ok [b0; b1; b2], st2) ->
        read_length_coded_binary st
        = (Ok (Some (byte2Z b0 + 2^8 * byte2Z b1 + 2^16 * byte2Z b2)), st2))
  /\ (byte2Z c = 254 ->
      forall b0 b1 b2 b3 b4 b5 b6 b7 st2,
        read 8 st1 = (Ok [b0; b1; b2; b3; b4; b5; b6; b7], st2) ->
        read_length_coded_binary st
        = (Ok (Some (byte2Z b0 + 2^8 * byte2Z b1 + 2^16 * byte2Z b2
                     + 2^24 * byte2Z b3 + 2^32 * byte2Z b4)), st2)).
Proof.
  intros R1. unfold read_length_coded_binary.
  rewrite (bind_Ok _ _ _ _ _ R1).
  rewrite byte2int_single, bind_lift_Ok.
  unfold NULL_COLUMN, UNSIGNED_CHAR_COLUMN, UNSIGNED_SHORT_COLUMN,
    UNSIGNED_INT24_COLUMN, UNSIGNED_INT64_COLUMN, UNSIGNED_SHORT_LENGTH,
    UNSIGNED_INT24_LENGTH, UNSIGNED_INT64_LENGTH.
  repeat split.
  - intros C. rewrite C. reflexivity.
  - intros C.
    destruct (Z.eqb_spec (byte2Z c) 251); [lia |].
    destruct (Z.ltb_spec (byte2Z c) 251); [reflexivity | lia].
  - intros C b0 b1 st2 R2. rewrite C. cbn [Z.eqb Z.ltb Z.compare Pos.compare
      Pos.compare_cont Pos.eqb].
    rewrite (bind_Ok _ _ _ _ _ R2).
    unfold unpack_uint16. change (py_slice [b0; b1] 0 2) with [b0; b1].
    unfold bind at 1. rewrite unpack_first_exact by reflexivity.
    unfold ret, decode. cbn [signed]. rewrite !uint_le_cons, uint_le_nil.
    do 3 f_equal. lia.
  - intros C b0 b1 b2 st2 R2. rewrite C. cbn [Z.eqb Z.ltb Z.compare Pos.compare
      Pos.compare_cont Pos.eqb].
    rewrite (bind_Ok _ _ _ _ _ R2).
    unfold unpack_int24, bind, lift, ret. cbn [item nth_error].
    rewrite !Z.shiftl_mul_pow2 by lia. do 3 f_equal. lia.
  - intros C b0 b1 b2 b3 b4 b5 b6 b7 st2 R2. rewrite C.
    cbn [Z.eqb Z.ltb Z.compare Pos.compare Pos.compare_cont Pos.eqb].
    rewrite (bind_Ok _ _ _ _ _ R2).
    unfold unpack_int64, bind, lift, ret. cbn [item nth_error].
    rewrite !Z.shiftl_mul_pow2 by lia. do 3 f_equal. lia.
Qed.

End length_coded_binary.

(** C2 at the prefix 0xFE. The eight bytes that follow hold 2^40, least
    significant byte first; the eight bytes are consumed and the value
    returned is 0, made of the first five bytes only. *)
Theorem length_coded_binary_drops_high_bytes :
  read_length_coded_binary
    (WrapperPayload_init [xfe; x00; x00; x00; x00; x00; x01; x00; x00])
  = (Ok (Some 0),
     {| payload := [xfe; x00; x00; x00; x00; x00; x01; x00; x00]; point := 9 |})
  /\ uint_le [x00; x00; x00; x00; x00; x01; x00; x00] = 2 ^ 40.
Proof. split; reflexivity. Qed.

(** The prefix 251 gives no value, and not the number 251. *)
Example length_coded_binary_null :
  fst (read_length_coded_binary (WrapperPayload_init [xfb])) = Ok None.
Proof. reflexivity. Qed.

(* ================================================================= *)
(** * Big-endian integers: [read_int_be_by_size] *)

(** Bits set by [lor] below a shifted value add up. *)
Lemma lor_shiftl_low (x y n : Z) :
  0 <= n -> 0 <= y < 2 ^ n ->
  Z.lor (Z.shiftl x n) y = x * 2 ^ n + y.
Proof.
  intros Hn Hy.
  assert (L : Z.land (Z.shiftl x n) y = 0).
  { apply Z.bits_inj'. intros i Hi.
    rewrite Z.land_spec, Z.bits_0.
    destruct (Z.lt_ge_cases i n) as [Hlt | Hge].
    - rewrite Z.shiftl_spec_low by exact Hlt. reflexivity.
    - rewrite <- (Z.mod_small y (2 ^ n)) by exact Hy.
      rewrite Z.mod_pow2_bits_high by lia. apply andb_false_r. }
  pose proof (Z.add_lor_land (Z.shiftl x n) y) as A.
  rewrite L in A. rewrite Z.shiftl_mul_pow2 in A |- * by exact Hn. lia.
Qed.

(** The value [read_int24_be] builds from three bytes. *)
Lemma lor_three_bytes (a b c : Z) :
  0 <= b < 256 -> 0 <= c < 256 ->
  Z.lor (Z.lor (Z.shiftl a 16) (Z.shiftl b 8)) c = a * 65536 + b * 256 + c.
Proof.
  intros Hb Hc.
  rewrite (lor_shiftl_low a (Z.shiftl b 8) 16)
    by (rewrite ?Z.shiftl_mul_pow2; lia).
  replace (a * 2 ^ 16 + Z.shiftl b 8) with (Z.shiftl (a * 2 ^ 8 + b) 8)
    by (rewrite !Z.shiftl_mul_pow2; lia).
  rewrite lor_shiftl_low by lia. lia.
Qed.

Section read_int_be.
Context {St : Type} `{StructMysql St}.

Lemma read_int24_be_value (st st' : St) (a b c : byte) :
  read 3 st = (Ok [a; b; c], st') ->
  read_int24_be st = (Ok (to_signed 3 (uint_be [a; b; c])), st').
Proof.
  intros R. unfold read_int24_be. rewrite (bind_Ok _ _ _ _ _ R).
  unfold struct.unpack.
  cbn [List.length calcsize fold_right size_of Nat.add Nat.eqb].
  rewrite bind_lift_Ok.
  cbn [fields firstn skipn size_of].
  unfold item. cbn [nth_error]. rewrite !bind_lift_Ok.
  unfold decode. cbn [signed]. rewrite !uint_le_cons, !uint_le_nil.
  rewrite !uint_be_cons, uint_be_nil. cbn [List.length].
  pose proof (byte2Z_range a). pose proof (byte2Z_range b).
  pose proof (byte2Z_range c).
  rewrite !Z.mul_0_r, !Z.add_0_r.
  rewrite lor_three_bytes by assumption.
  unfold ret, to_signed. do 2 f_equal.
  change (2 ^ (8 * Z.of_nat 3 - 1)) with 8388608.
  change (2 ^ (8 * Z.of_nat 3)) with 16777216.
  change (Z.of_nat 2) with 2. change (Z.of_nat 1) with 1.
  change (Z.of_nat 0) with 0.
  replace (byte2Z a * 256 ^ 2 + (byte2Z b * 256 ^ 1 + byte2Z c * 256 ^ 0))
    with (byte2Z a * 65536 + byte2Z b * 256 + byte2Z c) by lia.
  reflexivity.
Qed.

Lemma read_int40_be_value (st st' : St) (b0 b1 b2 b3 b4 : byte) :
  read 5 st = (Ok [b0; b1; b2; b3; b4], st') ->
  read_int40_be st = (Ok (uint_be [b0; b1; b2; b3; b4]), st').
Proof.
  intros R. unfold read_int40_be. rewrite (bind_Ok _ _ _ _ _ R).
  unfold struct.unpack.
  cbn [List.length calcsize fold_right size_of Nat.add Nat.eqb].
  rewrite bind_lift_Ok.
  cbn [fields firstn skipn size_of].
  unfold item. cbn [nth_error]. rewrite !bind_lift_Ok.
  unfold decode. cbn [signed].
  rewrite !uint_be_cons, uint_be_nil. cbn [List.length].
  rewrite Z.shiftl_mul_pow2 by lia.
  unfold ret. do 2 f_equal.
  change (Z.of_nat 4) with 4. change (Z.of_nat 3) with 3.
  change (Z.of_nat 2) with 2. change (Z.of_nat 1) with 1.
  change (Z.of_nat 0) with 0. lia.
Qed.

(** X8. With eight bytes the format ['>l'], which stands for four, is refused. *)
Lemma read_int_be_by_size_8_raises (st st' : St) (data : bytes) :
  read 8 st = (Ok data, st') -> List.length data = 8%nat ->
  read_int_be_by_size 8 st = (Raise struct_error, st').
Proof.
  intros R L. cbn [read_int_be_by_size]. rewrite (bind_Ok _ _ _ _ _ R).
  unfold bind. rewrite unpack_first_wrong_size; [reflexivity |].
  rewrite L. discriminate.
Qed.

(** C9, as amended. When the cursor hands over [size] bytes, the reader
    returns their signed big-endian value for the sizes 1, 2, 3 and 4, and
    their unsigned big-endian value for the size 5, and leaves the cursor
    where the read of these bytes left it. For a size other than 1, 2, 3, 4,
    5 and 8 it reads nothing and returns no value. *)
Theorem read_int_be_by_size_widths
  (size : nat) (st st' : St) (data : bytes) :
  read size st = (Ok data, st') ->
  List.length data = size ->
  ((1 <= size <= 4)%nat ->
   read_int_be_by_size size st
   = (Ok (Some (to_signed size (uint_be data))), st'))
  /\ (size = 5%nat ->
      read_int_be_by_size size st = (Ok (Some (uint_be data)), st'))
  /\ (forall (n : nat) (s : St),
         (n = 0 \/ n = 6 \/ n = 7 \/ 8 < n)%nat ->
         read_int_be_by_size n s = (Ok None, s)).
Proof.
  intros R L. split; [| split].
  - intros Hsize.
    assert (C : (size = 1 \/ size = 2 \/ size = 3 \/ size = 4)%nat) by lia.
    destruct C as [-> | [-> | [-> | ->]]].
    + cbn [read_int_be_by_size]. rewrite (bind_Ok _ _ _ _ _ R).
      unfold bind. rewrite unpack_first_exact by exact L. reflexivity.
    + cbn [read_int_be_by_size]. rewrite (bind_Ok _ _ _ _ _ R).
      unfold bind. rewrite unpack_first_exact by exact L. reflexivity.
    + destruct data as [| a [| b [| c [| ? ?]]]]; try discriminate L.
      cbn [read_int_be_by_size]. unfold bind.
      rewrite (read_int24_be_value _ _ _ _ _ R). reflexivity.
    + cbn [read_int_be_by_size]. rewrite (bind_Ok _ _ _ _ _ R).
      unfold bind. rewrite unpack_first_exact by exact L. reflexivity.
  - intros ->.
    destruct data as [| b0 [| b1 [| b2 [| b3 [| b4 [| ? ?]]]]]];
      try discriminate L.
    cbn [read_int_be_by_size]. unfold bind.
    rewrite (read_int40_be_value _ _ _ _ _ _ _ R). reflexivity.
  - intros n s Hn.
    do 9 (destruct n as [| n]; [try reflexivity; lia |]). reflexivity.
Qed.

End read_int_be.

Lemma read_int_be_by_size_widths_witness :
  read_int_be_by_size 3 (WrapperPayload_init [xff; x00; x01])
  = (Ok (Some (to_signed 3 (uint_be [xff; x00; x01]))),
     {| payload := [xff; x00; x01]; point := 3 |}).
Proof.
  refine (proj1 (read_int_be_by_size_widths
                   3 (WrapperPayload_init [xff; x00; x01])
                   {| payload := [xff; x00; x01]; point := 3 |} [xff; x00; x01]
                   _ _) _).
  - reflexivity.
  - reflexivity.
  - lia.
Defined.

(** C9, as stated, fails at the width 5: the five bytes FF 00 00 00 00 stand
    for -2^32 in two's complement and the reader returns 2^40 - 2^32. *)
Lemma read_int_be_by_size_5_is_unsigned :
  fst (read_int_be_by_size 5 (WrapperPayload_init [xff; x00; x00; x00; x00]))
  = Ok (Some 1095216660480)
  /\ to_signed 5 (uint_be [xff; x00; x00; x00; x00]) = -4294967296.
Proof. split; reflexivity. Qed.

Example read_int_be_by_size_3_example :
  fst (read_int_be_by_size 3 (WrapperPayload_init [xff; x00; x01]))
  = Ok (Some (-65535)).
Proof. reflexivity. Qed.

(* ================================================================= *)
(** * Packed decimals: [WrapperJson.read_new_decimal] *)

(** C1 on the class that defines the method. The precision, the scale and
    the first byte are read, then [self.unread] is called: a [WrapperJson] has
    no such method and the call raises, for the positive number and for the
    negative one. *)
Theorem read_new_decimal_on_WrapperJson_raises :
  read_new_decimal (WrapperPayload_init packed_1234_5678)
  = (Raise (AttributeError "unread"),
     {| payload := packed_1234_5678; point := 3 |})
  /\ read_new_decimal (WrapperPayload_init packed_minus_1234_5678)
     = (Raise (AttributeError "unread"),
        {| payload := packed_minus_1234_5678; point := 3 |}).
Proof. split; reflexivity. Qed.

(** On a cursor that has [unread], the same body gives the two numbers. *)
Example read_new_decimal_with_unread :
  fst (read_new_decimal (example_wrapper packed_1234_5678))
  = Ok {| sign := false; coefficient := 12345678; exponent := -4 |}
  /\ fst (read_new_decimal (example_wrapper packed_minus_1234_5678))
     = Ok {| sign := true; coefficient := 12345678; exponent := -4 |}.
Proof. split; reflexivity. Qed.

(** Every byte with its top bit flipped is a byte again. *)
Lemma pack_flipped_byte (b : byte) :
  exists b', struct.pack_B (Z.lxor (decode LittleEndian fB [b]) 0x80) = Ok [b'].
Proof. destruct b; eexists; reflexivity. Qed.

(** What a read of [n] bytes followed by the unpacking of one field leaves of
    a payload, and what it can return. *)
Lemma WrapperPayload_read_unpack (n : nat) (o : byte_order) (f : code)
  (w : WrapperPayload) :
  let data := py_slice (payload w) (point w) (point w + Z.of_nat n) in
  (data <- read n ;; unpack_first o f data) w
  = (if (List.length data =? size_of f)%nat then Ok (decode o f data)
     else Raise struct_error,
     {| payload := payload w; point := point w + Z.of_nat n |}).
Proof.
  intros data. cbn [read WrapperPayload_StructMysql].
  rewrite (bind_Ok _ _ _ _ _ (WrapperPayload_read_eq n w)). fold data.
  destruct (Nat.eqb_spec (List.length data) (size_of f)) as [L | L].
  - now rewrite unpack_first_exact.
  - now rewrite unpack_first_wrong_size.
Qed.

Lemma WrapperPayload_read_uint8 (w : WrapperPayload) :
  (exists b, read_uint8 w
             = (Ok (decode LittleEndian fB [b]),
                {| payload := payload w; point := point w + 1 |}))
  \/ read_uint8 w
     = (Raise struct_error, {| payload := payload w; point := point w + 1 |}).
Proof.
  unfold read_uint8. rewrite WrapperPayload_read_unpack.
  change (Z.of_nat 1) with 1.
  destruct (py_slice (payload w) (point w) (point w + 1)) as [| b [| ? ?]];
    cbn [List.length size_of Nat.eqb].
  - now right.
  - left. now exists b.
  - now right.
Qed.

(** On a [WrapperJson], [read_new_decimal] returns no number, whatever the
    payload: it raises, at the latest when it calls [self.unread]. *)
Lemma read_new_decimal_on_WrapperJson_never_returns (w : WrapperPayload) :
  exists e w', read_new_decimal w = (Raise e, w').
Proof.
  unfold read_new_decimal.
  destruct (WrapperPayload_read_uint8 w) as [[b1 E1] | E1];
    [rewrite (bind_Ok _ _ _ _ _ E1)
    | rewrite (bind_Raise _ _ _ _ _ E1); eauto].
  match goal with |- context [bind read_uint8 ?k ?s] =>
    destruct (WrapperPayload_read_uint8 s) as [[b2 E2] | E2];
      [rewrite (bind_Ok _ _ _ _ _ E2)
      | rewrite (bind_Raise _ _ _ _ _ E2); eauto]
  end.
  match goal with |- context [bind read_uint8 ?k ?s] =>
    destruct (WrapperPayload_read_uint8 s) as [[b3 E3] | E3];
      [rewrite (bind_Ok _ _ _ _ _ E3)
      | rewrite (bind_Raise _ _ _ _ _ E3); eauto]
  end.
  destruct (pack_flipped_byte b3) as [b' Eb].
  destruct (negb _); rewrite Eb, bind_lift_Ok;
    cbn [unread WrapperPayload_StructMysql];
    unfold bind at 1, raise at 1; eauto.
Qed.

(* ================================================================= *)
(** * Binary JSON: objects and arrays *)

Lemma WrapperPayload_read_unpack_state (n : nat) (o : byte_order) (f : code)
  (w w' : WrapperPayload) (r : outcome Z) :
  (data <- read n ;; unpack_first o f data) w = (r, w') ->
  w' = {| payload := payload w; point := point w + Z.of_nat n |}.
Proof.
  rewrite WrapperPayload_read_unpack. intros E. now inversion E.
Qed.

(** The header of a container takes four bytes of the payload, or eight in
    the large format. *)
Lemma read_container_header_state (large : bool) (w w' : WrapperPayload)
  (elements size : Z) :
  read_container_header large w = (Ok (elements, size), w') ->
  w' = {| payload := payload w;
          point := point w + (if large then 8 else 4) |}.
Proof.
  unfold read_container_header. destruct large; intros E;
    apply bind_Ok_inv in E; destruct E as (a & w1 & E1 & E);
    apply bind_Ok_inv in E; destruct E as (b & w2 & E2 & E);
    apply WrapperPayload_read_unpack_state in E1;
    apply WrapperPayload_read_unpack_state in E2;
    inversion E; subst; cbn [payload point]; f_equal; lia.
Qed.

Section WrapperJson_facts.
Context {K : JsonbConstants}.

(** The decoder of the values that are not inlined: any. *)
Variable nested : Z -> Z -> M WrapperPayload json.

(** C7. When the declared size read in the header of an object or of an array
    is larger than the length the decoder was given, the decoder raises
    [ValueError('Json length is larger than packet length')] and leaves the
    payload where the header ends, four bytes (eight in the large format)
    after its start: no key, no slot and no value has been read, and the
    decoder of nested values has not been called. *)
Theorem declared_size_checked_before_any_read
  (length : Z) (large : bool) (self self' : WrapperPayload)
  (elements size : Z) :
  read_container_header large self = (Ok (elements, size), self') ->
  length < size ->
  read_binary_json_object nested length large self
  = (Raise (ValueError "Json length is larger than packet length"), self')
  /\ read_binary_json_array nested length large self
     = (Raise (ValueError "Json length is larger than packet length"), self')
  /\ self' = {| payload := payload self;
                point := point self + (if large then 8 else 4) |}.
Proof.
  intros Hhdr Hsize.
  apply Z.ltb_lt in Hsize.
  unfold read_binary_json_object, read_binary_json_array.
  rewrite !(bind_Ok _ _ _ _ _ Hhdr), Hsize.
  repeat split. eapply read_container_header_state; eassumption.
Qed.

(** C10. When the header of a container declares no element, the object
    decoder raises: [ValueError] when the declared size is over the bound,
    and otherwise [IndexError], on [key_offset_lengths[0]] of an empty table.
    The array decoder, when the declared size is within the bound, returns the
    empty list. *)
Theorem zero_elements_object_raises_array_is_empty
  (length : Z) (large : bool) (self self' : WrapperPayload) (size : Z) :
  read_container_header large self = (Ok (0, size), self') ->
  (exists e, read_binary_json_object nested length large self = (Raise e, self'))
  /\ (size <= length ->
      read_binary_json_object nested length large self
      = (Raise IndexError, self')
      /\ read_binary_json_array nested length large self
         = (Ok (JList []), self')).
Proof.
  intros Hhdr.
  unfold read_binary_json_object, read_binary_json_array.
  rewrite !(bind_Ok _ _ _ _ _ Hhdr).
  destruct (Z.ltb_spec length size) as [Hlt | Hge].
  - split; [eexists; reflexivity | lia].
  - split; [eexists; reflexivity |]. intros _. split; reflexivity.
Qed.

End WrapperJson_facts.

Lemma declared_size_checked_before_any_read_witness :
  read_binary_json_object (K := mysql_jsonb)
    (read_binary_json_type (K := mysql_jsonb) 8) 3 false
    (WrapperPayload_init [x01; x00; xff; x00; x00; x00; x00; x00])
  = (Raise (ValueError "Json length is larger than packet length"),
     {| payload := [x01; x00; xff; x00; x00; x00; x00; x00]; point := 4 |})
  /\ read_binary_json_array (K := mysql_jsonb)
       (read_binary_json_type (K := mysql_jsonb) 8) 3 false
       (WrapperPayload_init [x01; x00; xff; x00; x00; x00; x00; x00])
     = (Raise (ValueError "Json length is larger than packet length"),
        {| payload := [x01; x00; xff; x00; x00; x00; x00; x00]; point := 4 |})
  /\ {| payload := [x01; x00; xff; x00; x00; x00; x00; x00]; point := 4 |}
     = {| payload := payload
                       (WrapperPayload_init
                          [x01; x00; xff; x00; x00; x00; x00; x00]);
          point := point (WrapperPayload_init
                            [x01; x00; xff; x00; x00; x00; x00; x00])
                   + (if false then 8 else 4) |}.
Proof.
  apply (declared_size_checked_before_any_read (K := mysql_jsonb)
           (read_binary_json_type (K := mysql_jsonb) 8) 3 false
           (WrapperPayload_init [x01; x00; xff; x00; x00; x00; x00; x00])
           {| payload := [x01; x00; xff; x00; x00; x00; x00; x00]; point := 4 |}
           1 255).
  - reflexivity.
  - lia.
Defined.

Lemma zero_elements_object_raises_array_is_empty_witness :
  (exists e,
      read_binary_json_object (K := mysql_jsonb)
        (read_binary_json_type (K := mysql_jsonb) 8) 4 false (WrapperPayload_init [x00; x00; x04; x00])
      = (Raise e, {| payload := [x00; x00; x04; x00]; point := 4 |}))
  /\ (4 <= 4 ->
      read_binary_json_object (K := mysql_jsonb)
        (read_binary_json_type (K := mysql_jsonb) 8) 4 false (WrapperPayload_init [x00; x00; x04; x00])
      = (Raise IndexError, {| payload := [x00; x00; x04; x00]; point := 4 |})
      /\ read_binary_json_array (K := mysql_jsonb)
           (read_binary_json_type (K := mysql_jsonb) 8) 4 false (WrapperPayload_init [x00; x00; x04; x00])
         = (Ok (JList []), {| payload := [x00; x00; x04; x00]; point := 4 |})).
Proof.
  apply (zero_elements_object_raises_array_is_empty (K := mysql_jsonb)
           (read_binary_json_type (K := mysql_jsonb) 8) 4 false
           (WrapperPayload_init [x00; x00; x04; x00])
           {| payload := [x00; x00; x04; x00]; point := 4 |} 4).
  reflexivity.
Defined.

(** An empty object and an empty array as whole documents: the type tag,
    then the header. *)
Example empty_object_and_array :
  fst (read_binary_json_type (K := mysql_jsonb) 8 0 5
         {| payload := [x00; x00; x00; x04; x00]; point := 1 |})
  = Raise IndexError
  /\ fst (read_binary_json_type (K := mysql_jsonb) 8 2 5
            {| payload := [x02; x00; x00; x04; x00]; point := 1 |})
     = Ok (JList []).
Proof. split; reflexivity. Qed.

(* ================================================================= *)
(** * Binary JSON: a value that fails to decode *)

(** A comprehension whose function raises on one element raises there. *)
Lemma mapM_raises_at {St A B : Type} (f : A -> M St B)
  (before after : list A) (x : A) (s s1 s' : St) (ys : list B) (e : exn) :
  mapM f before s = (Ok ys, s1) ->
  f x s1 = (Raise e, s') ->
  mapM f (before ++ x :: after) s = (Raise e, s').
Proof.
  revert s ys. induction before as [| a before IH]; intros s ys Hb Hx.
  - cbn [mapM ret] in Hb. inversion Hb. subst.
    cbn [app mapM]. now rewrite (bind_Raise _ _ _ _ _ Hx).
  - cbn [app mapM] in Hb |- *.
    apply bind_Ok_inv in Hb. destruct Hb as (y & s2 & Ha & Hb).
    apply bind_Ok_inv in Hb. destruct Hb as (ys' & s3 & Hb & Hr).
    cbn [ret] in Hr. inversion Hr. subst.
    rewrite (bind_Ok _ _ _ _ _ Ha).
    now rewrite (bind_Raise _ _ _ _ _ (IH _ _ Hb Hx)).
Qed.

Section WrapperJson_isolation.
Context {K : JsonbConstants}.

(** The decoder of the values that are not inlined: any. *)
Variable nested : Z -> Z -> M WrapperPayload json.

(** One turn of the loop of the object decoder on a field whose value is not
    inlined and fails to decode. *)
Lemma object_fields_field_raises
  (length : Z) (keys : list bytes) (fields : list slot) (i : nat)
  (range : list nat) (out : list (bytes * json)) (key : bytes)
  (t off : Z) (inlined : json) (e : exn) (self self' : WrapperPayload) :
  item keys i = Ok key ->
  item fields i = Ok (t, Some off, inlined) ->
  nested t length self = (Raise e, self') ->
  object_fields nested length keys fields (i :: range) out self
  = object_fields nested length keys fields range (dict_set out key JNone) self'.
Proof.
  intros Hkey Hfield Hfail. cbn [object_fields].
  rewrite Hkey, bind_lift_Ok, Hfield, bind_lift_Ok.
  unfold bind at 1, try_except. now rewrite Hfail.
Qed.

(** The loop of the object decoder lets no exception out. *)
Lemma object_fields_never_raises
  (length : Z) (keys : list bytes) (fields : list slot) (range : list nat) :
  Forall (fun i => (i < List.length keys)%nat /\ (i < List.length fields)%nat)
         range ->
  forall out self e s,
    object_fields nested length keys fields range out self <> (Raise e, s).
Proof.
  induction 1 as [| i range [Hk Hf] _ IH]; intros out self e s.
  - cbn [object_fields ret]. discriminate.
  - cbn [object_fields]. unfold item.
    apply nth_error_Some in Hk, Hf.
    destruct (nth_error keys i) as [key |]; [| congruence].
    destruct (nth_error fields i) as [[[t [off |]] inlined] |]; [| | congruence].
    + rewrite !bind_lift_Ok. unfold bind at 1, try_except.
      destruct (nested t length self) as [[v | e' |] s1].
      * apply IH.
      * cbn [ret]. apply IH.
      * discriminate.
    + rewrite !bind_lift_Ok, bind_ret. apply IH.
Qed.

Lemma replicateM_length {St A : Type} (n : nat) (m : M St A) :
  forall (s s' : St) (l : list A),
    replicateM n m s = (Ok l, s') -> List.length l = n.
Proof.
  induction n as [| n IH]; intros s s' l E; cbn [replicateM] in E.
  - cbn [ret] in E. now inversion E.
  - apply bind_Ok_inv in E. destruct E as (y & s1 & _ & E).
    apply bind_Ok_inv in E. destruct E as (ys & s2 & E & R).
    cbn [ret] in R. inversion R. cbn [List.length]. f_equal. eauto.
Qed.

Lemma mapM_length {St A B : Type} (f : A -> M St B) (xs : list A) :
  forall (s s' : St) (l : list B),
    mapM f xs s = (Ok l, s') -> List.length l = List.length xs.
Proof.
  induction xs as [| x xs IH]; intros s s' l E; cbn [mapM] in E.
  - cbn [ret] in E. now inversion E.
  - apply bind_Ok_inv in E. destruct E as (y & s1 & _ & E).
    apply bind_Ok_inv in E. destruct E as (ys & s2 & E & R).
    cbn [ret] in R. inversion R. cbn [List.length]. f_equal. eauto.
Qed.

Lemma skipn_cons_nth_error {A : Type} (k : nat) (l l' : list A) (x : A) :
  skipn k l = x :: l' -> nth_error l k = Some x /\ skipn (S k) l = l'.
Proof.
  revert l. induction k as [| k IH]; intros l E.
  - cbn [skipn] in E. subst l. split; reflexivity.
  - destruct l as [| y l]; [discriminate E |].
    cbn [skipn] in E. destruct (IH l E) as [N S']. split; assumption.
Qed.

Lemma field_values_app (length : Z) (l1 l2 : list (bytes * slot))
  (w w1 w2 : WrapperPayload) (v1 v2 : list (bytes * json)) :
  field_values nested length l1 w v1 w1 ->
  field_values nested length l2 w1 v2 w2 ->
  field_values nested length (l1 ++ l2) w (v1 ++ v2) w2.
Proof.
  intros D1 D2. induction D1; cbn [app].
  - exact D2.
  - apply field_values_inlined. auto.
  - eapply field_values_decoded; eauto.
  - eapply field_values_failed; eauto.
Qed.

(** The loop of the object decoder gives the fields the values the
    specification says, in the order of the fields. *)
Lemma object_fields_field_values (length : Z) (kvs : list (bytes * slot))
  (w w' : WrapperPayload) (vs : list (bytes * json)) :
  field_values nested length kvs w vs w' ->
  forall keys fields k out,
    skipn k keys = map fst kvs ->
    skipn k fields = map snd kvs ->
    object_fields nested length keys fields (seq k (List.length kvs)) out w
    = (Ok (fold_left (fun o kv => dict_set o (fst kv) (snd kv)) vs out), w').
Proof.
  induction 1 as [w | key t v rest w w' vs D IH
                  | key t off inlined v rest w w1 w' vs N D IH
                  | key t off inlined e rest w w1 w' vs N D IH];
    intros keys fields k out Hk Hf.
  - reflexivity.
  - cbn [map fst snd] in Hk, Hf.
    apply skipn_cons_nth_error in Hk, Hf.
    destruct Hk as [Nk Hk], Hf as [Nf Hf].
    cbn [List.length seq object_fields]. unfold item. rewrite Nk, Nf.
    rewrite !bind_lift_Ok, bind_ret. cbn [fold_left fst snd].
    now apply IH.
  - cbn [map fst snd] in Hk, Hf.
    apply skipn_cons_nth_error in Hk, Hf.
    destruct Hk as [Nk Hk], Hf as [Nf Hf].
    cbn [List.length seq object_fields]. unfold item. rewrite Nk, Nf.
    rewrite !bind_lift_Ok. unfold bind at 1, try_except. rewrite N.
    cbn [fold_left fst snd]. now apply IH.
  - cbn [map fst snd] in Hk, Hf.
    apply skipn_cons_nth_error in Hk, Hf.
    destruct Hk as [Nk Hk], Hf as [Nf Hf].
    cbn [List.length seq object_fields]. unfold item. rewrite Nk, Nf.
    rewrite !bind_lift_Ok. unfold bind at 1, try_except. rewrite N.
    cbn [ret fold_left fst snd]. now apply IH.
Qed.

Lemma combine_fst_snd {A B : Type} (xs : list A) (ys : list B) :
  List.length xs = List.length ys ->
  map fst (combine xs ys) = xs /\ map snd (combine xs ys) = ys
  /\ List.length (combine xs ys) = List.length xs.
Proof.
  revert ys. induction xs as [| x xs IH]; intros [| y ys] L;
    cbn [List.length] in L; try discriminate L.
  - repeat split.
  - destruct (IH ys ltac:(lia)) as (F & S' & N).
    cbn [combine map fst snd List.length]. now rewrite F, S', N.
Qed.

Lemma combine_app_same {A B : Type} (xs xs' : list A) (ys ys' : list B) :
  List.length xs = List.length ys ->
  combine (xs ++ xs') (ys ++ ys') = combine xs ys ++ combine xs' ys'.
Proof.
  revert ys. induction xs as [| x xs IH]; intros [| y ys] L;
    cbn [List.length] in L; try discriminate L.
  - reflexivity.
  - cbn [app combine]. f_equal. apply IH. lia.
Qed.

(** The object decoder, from the header to the dictionary, once the two
    tables and the keys are read: the dictionary holds the values the
    specification says. *)
Lemma read_binary_json_object_field_values
  (length : Z) (large : bool) (self self1 self2 self3 self4 self5 : WrapperPayload)
  (elements size : Z) (key_offset_lengths : list (Z * Z)) (first : Z * Z)
  (slots : list slot) (keys : list bytes) (vs : list (bytes * json)) :
  read_container_header large self = (Ok (elements, size), self1) ->
  size <= length ->
  replicateM (Z.to_nat elements) (read_key_offset_length large) self1
  = (Ok key_offset_lengths, self2) ->
  replicateM (Z.to_nat elements) (read_offset_or_inline large) self2
  = (Ok slots, self3) ->
  item key_offset_lengths 0 = Ok first ->
  mapM (fun x => read (Z.to_nat (snd x))) key_offset_lengths
    (fast_forward (fst first) self3) = (Ok keys, self4) ->
  field_values nested length (combine keys slots) self4 vs self5 ->
  read_binary_json_object nested length large self
  = (Ok (JDict (dict_of vs)), self5).
Proof.
  intros Hhdr Hsize Hkol Hslots Hfirst Hkeys Hvalues.
  pose proof (replicateM_length _ _ _ _ _ Hkol) as Lkol.
  pose proof (replicateM_length _ _ _ _ _ Hslots) as Lslots.
  pose proof (mapM_length _ _ _ _ _ Hkeys) as Lkeys.
  destruct (combine_fst_snd keys slots ltac:(lia)) as (F & S' & N).
  unfold read_binary_json_object.
  rewrite (bind_Ok _ _ _ _ _ Hhdr).
  destruct (Z.ltb_spec length size) as [? | _]; [lia |].
  unfold read_key_offset_length in Hkol.
  rewrite (bind_Ok _ _ _ _ _ Hkol), (bind_Ok _ _ _ _ _ Hslots).
  rewrite Hfirst, bind_lift_Ok.
  assert (Hff : (p <- get_point ;;
                 (if p <? fst first then set_point (fst first) else ret tt) ;;;
                 ret tt) self3 = (Ok tt, fast_forward (fst first) self3)).
  { unfold bind, get_point, set_point, ret, fast_forward.
    destruct (point self3 <? fst first); [reflexivity | now destruct self3]. }
  unfold bind at 1. unfold get_point at 1.
  unfold fast_forward in Hkeys.
  destruct (point self3 <? fst first).
  - unfold bind at 1. unfold set_point at 1.
    rewrite (bind_Ok _ _ _ _ _ Hkeys).
    replace (Z.to_nat elements) with (List.length (combine keys slots)) by lia.
    rewrite (bind_Ok _ _ _ _ _
               (object_fields_field_values _ _ _ _ _ Hvalues keys slots 0%nat []
                  (eq_sym F) (eq_sym S'))).
    reflexivity.
  - rewrite bind_ret. rewrite (bind_Ok _ _ _ _ _ Hkeys).
    replace (Z.to_nat elements) with (List.length (combine keys slots)) by lia.
    rewrite (bind_Ok _ _ _ _ _
               (object_fields_field_values _ _ _ _ _ Hvalues keys slots 0%nat []
                  (eq_sym F) (eq_sym S'))).
    reflexivity.
Qed.

(** The object decoder lets no exception out once the keys are read. *)
Lemma read_binary_json_object_never_raises_after_keys
  (length : Z) (large : bool) (self self1 self2 self3 self4 : WrapperPayload)
  (elements size : Z) (key_offset_lengths : list (Z * Z)) (first : Z * Z)
  (slots : list slot) (keys : list bytes) :
  read_container_header large self = (Ok (elements, size), self1) ->
  size <= length ->
  replicateM (Z.to_nat elements) (read_key_offset_length large) self1
  = (Ok key_offset_lengths, self2) ->
  replicateM (Z.to_nat elements) (read_offset_or_inline large) self2
  = (Ok slots, self3) ->
  item key_offset_lengths 0 = Ok first ->
  mapM (fun x => read (Z.to_nat (snd x))) key_offset_lengths
    (fast_forward (fst first) self3) = (Ok keys, self4) ->
  forall e s, read_binary_json_object nested length large self <> (Raise e, s).
Proof.
  intros Hhdr Hsize Hkol Hslots Hfirst Hkeys e s.
  pose proof (replicateM_length _ _ _ _ _ Hkol) as Lkol.
  pose proof (replicateM_length _ _ _ _ _ Hslots) as Lslots.
  pose proof (mapM_length _ _ _ _ _ Hkeys) as Lkeys.
  assert (Hloop : forall out w e' s',
             object_fields nested length keys slots
               (seq 0 (Z.to_nat elements)) out w <> (Raise e', s')).
  { intros out w e' s'. apply object_fields_never_raises.
    apply Forall_forall. intros i Hi. apply in_seq in Hi. lia. }
  unfold read_binary_json_object.
  rewrite (bind_Ok _ _ _ _ _ Hhdr).
  destruct (Z.ltb_spec length size) as [? | _]; [lia |].
  unfold read_key_offset_length in Hkol.
  rewrite (bind_Ok _ _ _ _ _ Hkol), (bind_Ok _ _ _ _ _ Hslots).
  rewrite Hfirst, bind_lift_Ok.
  unfold bind at 1. unfold get_point at 1.
  unfold fast_forward in Hkeys.
  destruct (point self3 <? fst first).
  - unfold bind at 1. unfold set_point at 1.
    rewrite (bind_Ok _ _ _ _ _ Hkeys). unfold bind.
    destruct (object_fields nested length keys slots
                (seq 0 (Z.to_nat elements)) [] self4)
      as [[out | e' |] s'] eqn:L; try discriminate.
    now apply Hloop in L.
  - rewrite bind_ret. rewrite (bind_Ok _ _ _ _ _ Hkeys). unfold bind.
    destruct (object_fields nested length keys slots
                (seq 0 (Z.to_nat elements)) [] self4)
      as [[out | e' |] s'] eqn:L; try discriminate.
    now apply Hloop in L.
Qed.

(** C8. The object decoder, [read_binary_json_object]: once the header, the
    two tables and the keys are read, when the decoding of the stored value
    of a field raises, whatever the exception, after the fields before it got
    their values, the decoder returns a dictionary, and in it the fields
    before have their values, the failed field has the value [None], and the
    fields after it have the values decoded from where the failed decoding
    left the cursor; and whatever the decoder of stored values does, no
    exception comes out of the object decoder once the keys are read. The
    loop of the decoder shows it turn by turn: a field whose decoding raises
    is set to [None] and the loop goes on with the next. The array decoder,
    [read_binary_json_array]: when the decoding of an element raises, after
    the elements before it were decoded, the whole decoder raises that
    exception. *)
Theorem object_isolates_field_errors_array_propagates (length : Z) :
  (forall large self self1 self2 self3 self4 self5 elements size
          key_offset_lengths first
          keys_before key keys_after slots_before t off inlined slots_after
          values_before e failed_at after_failure values_after,
      read_container_header large self = (Ok (elements, size), self1) ->
      size <= length ->
      replicateM (Z.to_nat elements) (read_key_offset_length large) self1
      = (Ok key_offset_lengths, self2) ->
      replicateM (Z.to_nat elements) (read_offset_or_inline large) self2
      = (Ok (slots_before ++ (t, Some off, inlined) :: slots_after), self3) ->
      item key_offset_lengths 0 = Ok first ->
      mapM (fun x => read (Z.to_nat (snd x))) key_offset_lengths
        (fast_forward (fst first) self3)
      = (Ok (keys_before ++ key :: keys_after), self4) ->
      List.length keys_before = List.length slots_before ->
      field_values nested length (combine keys_before slots_before) self4
        values_before failed_at ->
      nested t length failed_at = (Raise e, after_failure) ->
      field_values nested length (combine keys_after slots_after)
        after_failure values_after self5 ->
      read_binary_json_object nested length large self
      = (Ok (JDict (dict_of (values_before ++ (key, JNone) :: values_after))),
         self5))
  /\ (forall large self self1 self2 self3 self4 elements size
             key_offset_lengths first slots keys e s,
         read_container_header large self = (Ok (elements, size), self1) ->
         size <= length ->
         replicateM (Z.to_nat elements) (read_key_offset_length large) self1
         = (Ok key_offset_lengths, self2) ->
         replicateM (Z.to_nat elements) (read_offset_or_inline large) self2
         = (Ok slots, self3) ->
         item key_offset_lengths 0 = Ok first ->
         mapM (fun x => read (Z.to_nat (snd x))) key_offset_lengths
           (fast_forward (fst first) self3) = (Ok keys, self4) ->
         read_binary_json_object nested length large self <> (Raise e, s))
  /\ (forall keys fields i range out key t off inlined e self self',
         item keys i = Ok key ->
         item fields i = Ok (t, Some off, inlined) ->
         nested t length self = (Raise e, self') ->
         object_fields nested length keys fields (i :: range) out self
         = object_fields nested length keys fields range
             (dict_set out key JNone) self')
  /\ (forall keys fields out self e s,
         List.length keys = List.length fields ->
         object_fields nested length keys fields
           (seq 0 (List.length keys)) out self <> (Raise e, s))
  /\ (forall large self elements size self1 before t off inlined after
             self2 values self3 e self',
         read_container_header large self = (Ok (elements, size), self1) ->
         size <= length ->
         replicateM (Z.to_nat elements) (read_offset_or_inline large) self1
         = (Ok (before ++ (t, Some off, inlined) :: after), self2) ->
         mapM (array_read nested length) before self2 = (Ok values, self3) ->
         nested t length self3 = (Raise e, self') ->
         read_binary_json_array nested length large self = (Raise e, self')).
Proof.
  split; [| split; [| split; [| split]]].
  - intros large self self1 self2 self3 self4 self5 elements size
           key_offset_lengths first
           keys_before key keys_after slots_before t off inlined slots_after
           values_before e failed_at after_failure values_after
           Hhdr Hsize Hkol Hslots Hfirst Hkeys Lb Dbefore Hfail Dafter.
    eapply read_binary_json_object_field_values; try eassumption.
    rewrite combine_app_same by exact Lb. cbn [combine].
    eapply field_values_app; [exact Dbefore |].
    eapply field_values_failed; eassumption.
  - intros. eapply read_binary_json_object_never_raises_after_keys;
      eassumption.
  - intros. eapply object_fields_field_raises; eassumption.
  - intros keys fields out self e s L.
    apply object_fields_never_raises.
    apply Forall_forall. intros i Hi. apply in_seq in Hi. lia.
  - intros large self elements size self1 before t off inlined after
           self2 values self3 e self' Hhdr Hsize Hslots Hbefore Hfail.
    unfold read_binary_json_array.
    rewrite (bind_Ok _ _ _ _ _ Hhdr).
    destruct (Z.ltb_spec length size) as [? | _]; [lia |].
    rewrite (bind_Ok _ _ _ _ _ Hslots).
    apply bind_Raise.
    eapply mapM_raises_at; [exact Hbefore | exact Hfail].
Qed.

End WrapperJson_isolation.

(** The object is decoded, with [None] for the field that failed and 7 for
    the field after it; the array is not. *)
Example bad_field_and_bad_element :
  fst (read_binary_json_type (K := mysql_jsonb) 4 0 21
         {| payload := object_with_bad_field; point := 1 |})
  = Ok (JDict [([x61], JNone); ([x62], JInt 7)])
  /\ fst (read_binary_json_type (K := mysql_jsonb) 4 2 11
            {| payload := array_with_bad_element; point := 1 |})
     = Raise (ValueError "Json type 13 is not handled").
Proof. split; reflexivity. Qed.

Lemma object_isolates_field_errors_array_propagates_witness :
  read_binary_json_object (K := mysql_jsonb)
    (read_binary_json_type (K := mysql_jsonb) 4) 20 false
    {| payload := object_with_bad_field; point := 1 |}
  = (Ok (JDict (dict_of ([] ++ ([x61], JNone) :: [([x62], JInt 7)]))),
     {| payload := object_with_bad_field; point := 21 |})
  /\ object_fields (read_binary_json_type (K := mysql_jsonb) 4) 20
       [[x61]; [x62]] [(13, Some 20, JNone); (5, None, JInt 7)] [0; 1]%nat []
       {| payload := object_with_bad_field; point := 21 |}
     = (Ok [([x61], JNone); ([x62], JInt 7)],
        {| payload := object_with_bad_field; point := 21 |})
  /\ read_binary_json_array (K := mysql_jsonb)
       (read_binary_json_type (K := mysql_jsonb) 4) 10 false
       {| payload := array_with_bad_element; point := 1 |}
     = (Raise (ValueError "Json type 13 is not handled"),
        {| payload := array_with_bad_element; point := 11 |}).
Proof.
  pose proof (object_isolates_field_errors_array_propagates
                (K := mysql_jsonb)
                (read_binary_json_type (K := mysql_jsonb) 4) 20) as Hobj.
  pose proof (object_isolates_field_errors_array_propagates
                (K := mysql_jsonb)
                (read_binary_json_type (K := mysql_jsonb) 4) 10) as Harr.
  split; [| split].
  - apply (proj1 Hobj false
             {| payload := object_with_bad_field; point := 1 |}
             {| payload := object_with_bad_field; point := 5 |}
             {| payload := object_with_bad_field; point := 13 |}
             {| payload := object_with_bad_field; point := 19 |}
             {| payload := object_with_bad_field; point := 21 |}
             {| payload := object_with_bad_field; point := 21 |}
             2 20 [(19, 1); (20, 1)] (19, 1)
             [] [x61] [[x62]] [] 13 20 JNone [(5, None, JInt 7)]
             [] (ValueError "Json type 13 is not handled")
             {| payload := object_with_bad_field; point := 21 |}
             {| payload := object_with_bad_field; point := 21 |}
             [([x62], JInt 7)]).
    + reflexivity.
    + lia.
    + reflexivity.
    + reflexivity.
    + reflexivity.
    + reflexivity.
    + reflexivity.
    + apply field_values_nil.
    + reflexivity.
    + apply field_values_inlined, field_values_nil.
  - rewrite (proj1 (proj2 (proj2 Hobj)) [[x61]; [x62]]
               [(13, Some 20, JNone); (5, None, JInt 7)] 0%nat [1%nat] []
               [x61] 13 20 JNone (ValueError "Json type 13 is not handled")
               {| payload := object_with_bad_field; point := 21 |}
               {| payload := object_with_bad_field; point := 21 |}
               eq_refl eq_refl eq_refl).
    reflexivity.
  - apply (proj2 (proj2 (proj2 (proj2 Harr))) false
             {| payload := array_with_bad_element; point := 1 |} 2 10
             {| payload := array_with_bad_element; point := 5 |}
             [] 13 10 JNone [(5, None, JInt 7)]
             {| payload := array_with_bad_element; point := 11 |}
             []
             {| payload := array_with_bad_element; point := 11 |}).
    + reflexivity.
    + lia.
    + reflexivity.
    + reflexivity.
    + reflexivity.
Defined.

(* ================================================================= *)
(** * The fuel a payload needs

    No decoder moves the position of a payload back, and a container is
    entered only when the four bytes of its header, at least, lie in the
    payload: nesting is no deeper than the payload is long, and with as much
    fuel as the payload has bytes the decoder returns or raises. *)

Section keeps_facts.
Variable I : WrapperPayload -> Prop.

Lemma keeps_ret {A : Type} (a : A) : keeps I (ret a).
Proof.
  intros w Hw r w' E. cbn [ret] in E. inversion E. subst.
  split; [discriminate | exact Hw].
Qed.

Lemma keeps_raise {A : Type} (e : exn) : keeps I (@raise _ A e).
Proof.
  intros w Hw r w' E. unfold raise in E. inversion E. subst.
  split; [discriminate | exact Hw].
Qed.

Lemma keeps_lift {A : Type} (o : outcome A) :
  o <> OutOfFuel -> keeps I (lift o).
Proof.
  intros Ho w Hw r w' E. unfold lift in E. inversion E. subst.
  split; [exact Ho | exact Hw].
Qed.

Lemma keeps_bind {A B : Type} (m : M WrapperPayload A)
  (k : A -> M WrapperPayload B) :
  keeps I m -> (forall a, keeps I (k a)) -> keeps I (bind m k).
Proof.
  intros Hm Hk w Hw r w' E. unfold bind in E.
  destruct (m w) as [[a | e |] w1] eqn:Em;
    destruct (Hm w Hw _ _ Em) as [Hr H1].
  - exact (Hk a w1 H1 _ _ E).
  - inversion E. subst. split; [discriminate | exact H1].
  - congruence.
Qed.

Lemma keeps_try_except {A : Type} (m : M WrapperPayload A)
  (h : exn -> M WrapperPayload A) :
  keeps I m -> (forall e, keeps I (h e)) -> keeps I (try_except m h).
Proof.
  intros Hm Hh w Hw r w' E. unfold try_except in E.
  destruct (m w) as [[a | e |] w1] eqn:Em;
    destruct (Hm w Hw _ _ Em) as [Hr H1].
  - inversion E. subst. split; [discriminate | exact H1].
  - exact (Hh e w1 H1 _ _ E).
  - congruence.
Qed.

Lemma keeps_mapM {A B : Type} (f : A -> M WrapperPayload B) (l : list A) :
  (forall a, keeps I (f a)) -> keeps I (mapM f l).
Proof.
  intros Hf. induction l as [| a l IH]; cbn [mapM].
  - apply keeps_ret.
  - apply keeps_bind; [apply Hf | intros y].
    apply keeps_bind; [exact IH | intros ys]. apply keeps_ret.
Qed.

Lemma keeps_replicateM {A : Type} (n : nat) (m : M WrapperPayload A) :
  keeps I m -> keeps I (replicateM n m).
Proof.
  intros Hm. induction n as [| n IH]; cbn [replicateM].
  - apply keeps_ret.
  - apply keeps_bind; [exact Hm | intros y].
    apply keeps_bind; [exact IH | intros ys]. apply keeps_ret.
Qed.

Lemma keeps_get_point : keeps I get_point.
Proof.
  intros w Hw r w' E. unfold get_point in E. inversion E. subst.
  split; [discriminate | exact Hw].
Qed.

Lemma keeps_get_payload : keeps I get_payload.
Proof.
  intros w Hw r w' E. unfold get_payload in E. inversion E. subst.
  split; [discriminate | exact Hw].
Qed.

End keeps_facts.

Lemma item_not_OutOfFuel {A : Type} (l : list A) (i : nat) :
  item l i <> OutOfFuel.
Proof. unfold item. destruct (nth_error l i); discriminate. Qed.

Lemma py_item_not_OutOfFuel {A : Type} (l : list A) (i : Z) :
  py_item l i <> OutOfFuel.
Proof.
  unfold py_item. destruct (_ || _); [discriminate | apply item_not_OutOfFuel].
Qed.

Lemma unpack_not_OutOfFuel (o : byte_order) (fmt : list code) (data : bytes) :
  struct.unpack o fmt data <> OutOfFuel.
Proof. unfold struct.unpack. destruct (_ =? _)%nat; discriminate. Qed.

Lemma byte2int_not_OutOfFuel (b : bytes) : byte2int b <> OutOfFuel.
Proof.
  unfold byte2int, struct.unpack, outcome_bind.
  destruct (_ =? _)%nat; [apply item_not_OutOfFuel | discriminate].
Qed.

Lemma pack_B_not_OutOfFuel (v : Z) : struct.pack_B v <> OutOfFuel.
Proof.
  unfold struct.pack_B. destruct (if v <? 0 then _ else _); discriminate.
Qed.

Lemma keeps_bind_raise {A B : Type} (I : WrapperPayload -> Prop) (e : exn)
  (k : A -> M WrapperPayload B) :
  keeps I (bind (raise e) k).
Proof.
  intros w Hw r w' E. unfold bind, raise in E. inversion E. subst.
  split; [discriminate | exact Hw].
Qed.

Lemma keeps_weaken {A : Type} (I J : WrapperPayload -> Prop)
  (m : M WrapperPayload A) (w w' : WrapperPayload) (r : outcome A) :
  keeps J m -> J w -> (forall x, J x -> I x) ->
  m w = (r, w') -> r <> OutOfFuel /\ I w'.
Proof.
  intros Hm Hw HJI E. destruct (Hm w Hw _ _ E) as [Hr H']. auto.
Qed.

Section at_least_facts.
Variable pl : bytes.
Variable p0 : Z.

#[local] Abbreviation here := (at_least pl p0).

Lemma keeps_read (n : nat) : keeps here (read n).
Proof.
  intros w [Hpl Hp] r w' E. cbn [read WrapperPayload_StructMysql] in E.
  rewrite WrapperPayload_read_eq in E. inversion E. subst.
  split; [discriminate |]. split; cbn [payload point]; [reflexivity | lia].
Qed.

Lemma keeps_unpack_first (o : byte_order) (f : code) (data : bytes) :
  keeps here (unpack_first o f data).
Proof.
  unfold unpack_first. apply keeps_bind.
  - apply keeps_lift, unpack_not_OutOfFuel.
  - intros vs. apply keeps_lift, item_not_OutOfFuel.
Qed.

(** The step of the object decoder that moves the position forward to the
    first key. *)
Lemma keeps_fast_forward {B : Type} (x : Z) (k : M WrapperPayload B) :
  keeps here k ->
  keeps here (p <- get_point ;;
              (if p <? x then set_point x else ret tt) ;;; k).
Proof.
  intros Hk w [Hpl Hp] r w' E. unfold bind at 1, get_point in E.
  destruct (Z.ltb_spec (point w) x) as [Hlt | Hge].
  - unfold bind at 1, set_point at 1 in E.
    eapply Hk; [| exact E]. split; cbn [payload point]; [exact Hpl | lia].
  - rewrite bind_ret in E. eapply Hk; [| exact E]. now split.
Qed.

End at_least_facts.

Ltac keeps_step :=
  match goal with
  | |- keeps _ (bind (raise _) _) => apply keeps_bind_raise
  | |- keeps _ (bind get_point (fun p => bind (if p <? _ then _ else _) _)) =>
      apply keeps_fast_forward
  | |- keeps _ (bind _ _) => apply keeps_bind; [| intros ?]
  | |- keeps _ (ret _) => apply keeps_ret
  | |- keeps _ (raise _) => apply keeps_raise
  | |- keeps _ (json_type_not_handled _) => apply keeps_raise
  | |- keeps _ json_length_error => apply keeps_raise
  | |- keeps _ (lift (item _ _)) => apply keeps_lift, item_not_OutOfFuel
  | |- keeps _ (lift (py_item _ _)) => apply keeps_lift, py_item_not_OutOfFuel
  | |- keeps _ (lift (byte2int _)) => apply keeps_lift, byte2int_not_OutOfFuel
  | |- keeps _ (lift (struct.pack_B _)) => apply keeps_lift, pack_B_not_OutOfFuel
  | |- keeps _ (lift (struct.unpack _ _ _)) =>
      apply keeps_lift, unpack_not_OutOfFuel
  | |- keeps _ (read _) => apply keeps_read
  | |- keeps _ (unread _) => apply keeps_raise
  | |- keeps _ (unpack_first _ _ _) => apply keeps_unpack_first
  | |- keeps _ get_payload => apply keeps_get_payload
  | |- keeps _ get_point => apply keeps_get_point
  | |- keeps _ (mapM _ _) => apply keeps_mapM; intros ?
  | |- keeps _ (replicateM _ _) => apply keeps_replicateM
  | |- keeps _ (if ?c then _ else _) => destruct c
  | |- keeps _ (match ?x with _ => _ end) => destruct x
  | |- keeps _ (let (_, _) := ?x in _) => destruct x
  end.

Section at_least_decoders.
Context {K : JsonbConstants}.
Variable pl : bytes.
Variable p0 : Z.

#[local] Abbreviation there := (at_least pl p0).

Lemma keeps_read_uint8 : keeps there read_uint8.
Proof. unfold read_uint8. repeat keeps_step. Qed.

Lemma keeps_read_uint16 : keeps there read_uint16.
Proof. unfold read_uint16. repeat keeps_step. Qed.

Lemma keeps_read_int16 : keeps there read_int16.
Proof. unfold read_int16. repeat keeps_step. Qed.

Lemma keeps_read_uint32 : keeps there read_uint32.
Proof. unfold read_uint32. repeat keeps_step. Qed.

Lemma keeps_read_int32 : keeps there read_int32.
Proof. unfold read_int32. repeat keeps_step. Qed.

Lemma keeps_read_uint64 : keeps there read_uint64.
Proof. unfold read_uint64. repeat keeps_step. Qed.

Lemma keeps_read_int64 : keeps there read_int64.
Proof. unfold read_int64. repeat keeps_step. Qed.

Lemma keeps_read_new_decimal : keeps there read_new_decimal.
Proof.
  unfold read_new_decimal.
  apply keeps_bind; [apply keeps_read_uint8 | intros precision].
  apply keeps_bind; [apply keeps_read_uint8 | intros decimals].
  apply keeps_bind; [apply keeps_read_uint8 | intros value].
  cbn [unread WrapperPayload_StructMysql].
  destruct (negb _); repeat keeps_step.
Qed.

Lemma keeps_read_opaque (length : Z) : keeps there (read_opaque length).
Proof.
  unfold read_opaque.
  apply keeps_bind; [apply keeps_read_uint8 | intros t].
  destruct (t =? 246).
  - apply keeps_bind; [apply keeps_read_new_decimal | intros d].
    apply keeps_ret.
  - apply keeps_raise.
Qed.

Lemma keeps_read_binary_json_type_inlined (t : Z) (large : bool) :
  keeps there (read_binary_json_type_inlined t large).
Proof.
  unfold read_binary_json_type_inlined, read_uint16, read_uint32, read_int16,
    read_int32, read_uint64, read_int64.
  repeat keeps_step.
Qed.

Lemma keeps_read_offset_or_inline (large : bool) :
  keeps there (read_offset_or_inline large).
Proof.
  unfold read_offset_or_inline.
  apply keeps_bind; [apply keeps_read_uint8 | intros t].
  destruct (_ || _).
  - apply keeps_bind;
      [apply keeps_read_binary_json_type_inlined | intros v; apply keeps_ret].
  - destruct (_ && _).
    + apply keeps_bind;
        [apply keeps_read_binary_json_type_inlined | intros v; apply keeps_ret].
    + destruct large.
      * apply keeps_bind; [apply keeps_read_uint32 | intros v; apply keeps_ret].
      * apply keeps_bind; [apply keeps_read_uint16 | intros v; apply keeps_ret].
Qed.

Lemma keeps_read_container_header (large : bool) :
  keeps there (read_container_header large).
Proof.
  unfold read_container_header, read_uint16, read_uint32.
  repeat keeps_step.
Qed.

End at_least_decoders.

Lemma byte2int_Ok_length (b : bytes) (v : Z) :
  byte2int b = Ok v -> List.length b = 1%nat.
Proof.
  unfold byte2int, struct.unpack.
  destruct (Nat.eqb_spec (List.length b) (calcsize [fB])) as [L | L].
  - intros _. exact L.
  - discriminate.
Qed.

(** A read followed by the unpacking of one field returns a value only when
    the bytes asked for lie in the payload. *)
Lemma WrapperPayload_read_unpack_Ok (n : nat) (o : byte_order) (f : code)
  (w w' : WrapperPayload) (v : Z) :
  0 <= point w -> n = size_of f ->
  (data <- read n ;; unpack_first o f data) w = (Ok v, w') ->
  w' = {| payload := payload w; point := point w + Z.of_nat n |}
  /\ point w + Z.of_nat n <= Z.of_nat (List.length (payload w)).
Proof.
  intros Hp Hn E. rewrite WrapperPayload_read_unpack in E.
  destruct (Nat.eqb_spec
              (List.length
                 (py_slice (payload w) (point w) (point w + Z.of_nat n)))
              (size_of f)) as [L | L]; [| inversion E].
  inversion E. split; [reflexivity |].
  rewrite py_slice_from, length_firstn, length_skipn in L by exact Hp.
  assert (1 <= size_of f)%nat by (destruct f; cbn [size_of]; lia).
  lia.
Qed.

Section fuel.
Context {K : JsonbConstants}.
Variable pl : bytes.

(** The loop that reads the length of a string stops before its fuel does
    when it has more fuel than the payload has bytes left. *)
Lemma read_variable_length_loop_keeps (p0 : Z) (fuel : nat) :
  forall byte length bits_read w,
    at_least pl p0 w -> 0 <= point w ->
    Z.max 0 (Z.of_nat (List.length pl) - point w) < Z.of_nat fuel ->
    forall r w',
      read_variable_length_loop fuel byte length bits_read w = (r, w') ->
      r <> OutOfFuel /\ at_least pl p0 w'.
Proof.
  induction fuel as [| fuel IH]; intros byte length bits_read w Hw Hp Hfuel r w' E.
  - lia.
  - cbn [read_variable_length_loop] in E.
    destruct (Z.land byte 128 =? 0).
    + cbn [ret] in E. inversion E. subst r w'.
      split; [discriminate | exact Hw].
    + cbn [read WrapperPayload_StructMysql] in E.
      rewrite (bind_Ok _ _ _ _ _ (WrapperPayload_read_eq 1 w)) in E.
      destruct Hw as [Hpl Hp0].
      destruct (byte2int (py_slice (payload w) (point w) (point w + Z.of_nat 1)))
        as [v | e |] eqn:B.
      * rewrite bind_lift_Ok in E.
        apply byte2int_Ok_length in B.
        rewrite py_slice_from, length_firstn, length_skipn in B by exact Hp.
        rewrite Hpl in B.
        eapply IH; [| | | exact E].
        -- split; cbn [payload point]; [exact Hpl | lia].
        -- cbn [payload point]. lia.
        -- cbn [payload point]. lia.
      * unfold bind, lift in E. inversion E.
        split; [discriminate |]. split; cbn [payload point]; [exact Hpl | lia].
      * now apply byte2int_not_OutOfFuel in B.
Qed.

Lemma keeps_read_variable_length_string (p0 : Z) :
  0 <= p0 ->
  keeps (at_least pl p0) WrapperJson_read_variable_length_string.
Proof.
  intros Hp0 w Hw r w' E.
  unfold WrapperJson_read_variable_length_string in E.
  unfold bind at 1, get_payload in E.
  unfold read_variable_length_string in E. unfold bind at 1 in E.
  pose proof Hw as [Hpl Hp]. rewrite Hpl in E.
  assert (Hpoint : 0 <= point w) by lia.
  assert (Hfuel : Z.max 0 (Z.of_nat (List.length pl) - point w)
                  < Z.of_nat (S (List.length pl))) by lia.
  destruct (read_variable_length_loop (S (List.length pl)) 128 0 0 w)
    as [[len | e |] w1] eqn:L;
    destruct (read_variable_length_loop_keeps p0 _ _ _ _ w Hw Hpoint Hfuel
                _ _ L) as [Hr Hw1].
  - eapply keeps_read; eassumption.
  - inversion E. split; [discriminate |]. congruence.
  - congruence.
Qed.

(** The header of a container is read only when it lies in the payload. *)
Lemma read_container_header_bounds (p0 : Z) (large : bool)
  (w w' : WrapperPayload) (v : Z * Z) :
  at_least pl p0 w -> 0 <= p0 ->
  read_container_header large w = (Ok v, w') ->
  at_least pl (p0 + 4) w' /\ p0 + 4 <= Z.of_nat (List.length pl).
Proof.
  intros [Hpl Hp] Hp0 E. unfold read_container_header in E.
  destruct large;
    apply bind_Ok_inv in E; destruct E as (a & w1 & E1 & E);
    apply bind_Ok_inv in E; destruct E as (b & w2 & E2 & E);
    cbn [ret] in E; inversion E; subst;
    apply WrapperPayload_read_unpack_Ok in E1; try reflexivity; try lia;
    destruct E1 as [-> B1];
    apply WrapperPayload_read_unpack_Ok in E2; try reflexivity;
    cbn [payload point] in *; try lia;
    destruct E2 as [-> B2]; cbn [payload point] in *;
    (split; [split; cbn [payload point]; [reflexivity | lia] | lia]).
Qed.

Ltac keeps_decoder :=
  repeat first
    [ apply keeps_read_uint8 | apply keeps_read_uint16 | apply keeps_read_uint32
    | apply keeps_read_offset_or_inline | keeps_step ].

Lemma keeps_object_fields (I : WrapperPayload -> Prop)
  (nested : Z -> Z -> M WrapperPayload json) (length : Z)
  (keys : list bytes) (fields : list slot) (range : list nat) :
  (forall t l, keeps I (nested t l)) ->
  forall out, keeps I (object_fields nested length keys fields range out).
Proof.
  intros Hn. induction range as [| i range IH]; intros out;
    cbn [object_fields].
  - apply keeps_ret.
  - apply keeps_bind; [apply keeps_lift, item_not_OutOfFuel | intros key].
    apply keeps_bind; [apply keeps_lift, item_not_OutOfFuel | intros field].
    apply keeps_bind; [| intros data; apply IH].
    destruct field as [[t [off |]] inlined].
    + apply keeps_try_except; [apply Hn | intros e; apply keeps_ret].
    + apply keeps_ret.
Qed.

(** What follows the header in the object decoder. *)
Lemma keeps_object_after_header (p : Z)
  (nested : Z -> Z -> M WrapperPayload json) (length : Z) (large : bool)
  (elements : Z) :
  (forall t l, keeps (at_least pl p) (nested t l)) ->
  keeps (at_least pl p)
    (key_offset_lengths <-
       replicateM (Z.to_nat elements)
         (if large
          then o <- read_uint32 ;; l <- read_uint16 ;; ret (o + 1, l)
          else o <- read_uint16 ;; l <- read_uint16 ;; ret (o + 1, l)) ;;
     value_type_inlined_lengths <-
       replicateM (Z.to_nat elements) (read_offset_or_inline large) ;;
     first <- lift (item key_offset_lengths 0) ;;
     p <- get_point ;;
     (if p <? fst first then set_point (fst first) else ret tt) ;;;
     keys <- mapM (fun x => read (Z.to_nat (snd x))) key_offset_lengths ;;
     out <- object_fields nested length keys value_type_inlined_lengths
              (seq 0 (Z.to_nat elements)) [] ;;
     ret (JDict out)).
Proof.
  intros Hn.
  apply keeps_bind; [| intros key_offset_lengths].
  { apply keeps_replicateM. destruct large; keeps_decoder. }
  apply keeps_bind; [| intros value_type_inlined_lengths].
  { apply keeps_replicateM, keeps_read_offset_or_inline. }
  apply keeps_bind; [apply keeps_lift, item_not_OutOfFuel | intros first].
  apply keeps_fast_forward.
  apply keeps_bind; [| intros keys].
  { apply keeps_mapM. intros x. apply keeps_read. }
  apply keeps_bind; [| intros out; apply keeps_ret].
  apply keeps_object_fields, Hn.
Qed.

Lemma keeps_read_binary_json_object (p0 : Z)
  (nested : Z -> Z -> M WrapperPayload json) (length : Z) (large : bool) :
  0 <= p0 ->
  (p0 + 4 <= Z.of_nat (List.length pl) ->
   forall t l, keeps (at_least pl (p0 + 4)) (nested t l)) ->
  keeps (at_least pl p0) (read_binary_json_object nested length large).
Proof.
  intros Hp0 Hn w Hw r w' E.
  unfold read_binary_json_object in E. unfold bind at 1 in E.
  destruct (read_container_header large w) as [[[elements size] | e |] w1]
    eqn:Hh.
  - destruct (read_container_header_bounds _ _ _ _ _ Hw Hp0 Hh) as [Hw1 Hlen].
    destruct (length <? size).
    + unfold json_length_error, raise in E. inversion E.
      split; [discriminate |].
      replace w' with w1 by congruence.
      destruct Hw1 as [? ?]. split; [assumption | lia].
    + eapply (keeps_weaken _ (at_least pl (p0 + 4)));
        [apply keeps_object_after_header, Hn, Hlen | exact Hw1 | | exact E].
      intros x [? ?]. split; [assumption | lia].
  - inversion E. split; [discriminate |].
    replace w' with w1 by congruence.
    exact (proj2 (keeps_read_container_header pl p0 large w Hw _ _ Hh)).
  - exfalso.
    now apply (proj1 (keeps_read_container_header pl p0 large w Hw _ _ Hh)).
Qed.

Lemma keeps_read_binary_json_array (p0 : Z)
  (nested : Z -> Z -> M WrapperPayload json) (length : Z) (large : bool) :
  0 <= p0 ->
  (p0 + 4 <= Z.of_nat (List.length pl) ->
   forall t l, keeps (at_least pl (p0 + 4)) (nested t l)) ->
  keeps (at_least pl p0) (read_binary_json_array nested length large).
Proof.
  intros Hp0 Hn w Hw r w' E.
  unfold read_binary_json_array in E. unfold bind at 1 in E.
  destruct (read_container_header large w) as [[[elements size] | e |] w1]
    eqn:Hh.
  - destruct (read_container_header_bounds _ _ _ _ _ Hw Hp0 Hh) as [Hw1 Hlen].
    destruct (length <? size).
    + unfold json_length_error, raise in E. inversion E.
      split; [discriminate |].
      replace w' with w1 by congruence.
      destruct Hw1 as [? ?]. split; [assumption | lia].
    + eapply (keeps_weaken _ (at_least pl (p0 + 4)));
        [| exact Hw1 | | exact E].
      * apply keeps_bind; [| intros slots].
        { apply keeps_replicateM, keeps_read_offset_or_inline. }
        apply keeps_bind; [| intros l; apply keeps_ret].
        apply keeps_mapM. intros [[t [off |]] inlined]; cbn [array_read].
        -- apply Hn, Hlen.
        -- apply keeps_ret.
      * intros x [? ?]. split; [assumption | lia].
  - inversion E. split; [discriminate |].
    replace w' with w1 by congruence.
    exact (proj2 (keeps_read_container_header pl p0 large w Hw _ _ Hh)).
  - exfalso.
    now apply (proj1 (keeps_read_container_header pl p0 large w Hw _ _ Hh)).
Qed.

Lemma keeps_read_binary_json_type_body (p0 : Z)
  (nested : Z -> Z -> M WrapperPayload json) (t length : Z) :
  0 <= p0 ->
  (p0 + 4 <= Z.of_nat (List.length pl) ->
   forall t l, keeps (at_least pl (p0 + 4)) (nested t l)) ->
  keeps (at_least pl p0) (read_binary_json_type_body nested t length).
Proof.
  intros Hp0 Hn. unfold read_binary_json_type_body.
  destruct (_ || _); [now apply keeps_read_binary_json_object |].
  destruct (_ || _); [now apply keeps_read_binary_json_array |].
  destruct (t =? JSONB_TYPE_STRING).
  { apply keeps_bind;
      [now apply keeps_read_variable_length_string
      | intros s0; apply keeps_ret]. }
  unfold read_int16, read_int32, read_int64, read_uint64.
  repeat first
    [ apply keeps_read_opaque | apply keeps_read_uint8
    | apply keeps_read_uint16 | apply keeps_read_uint32 | keeps_step ].
Qed.

(** With as much fuel as the payload has bytes after the position of the
    cursor, [read_binary_json_type] returns a value or raises, and leaves the
    cursor on the same payload, no earlier than it was. *)
Theorem read_binary_json_type_enough_fuel (fuel : nat) :
  forall (p0 t length : Z),
    0 <= p0 ->
    Z.of_nat (List.length pl) - p0 <= Z.of_nat fuel ->
    keeps (at_least pl p0) (read_binary_json_type fuel t length).
Proof.
  induction fuel as [| fuel IH]; intros p0 t length Hp0 Hfuel;
    cbn [read_binary_json_type];
    apply keeps_read_binary_json_type_body; try exact Hp0; intros Hlen.
  - lia.
  - intros t' l'. apply IH; lia.
Qed.

End fuel.

(** A decoder started on a whole document, after its type tag, with as much
    fuel as the document has bytes: it returns a value or it raises. *)
Corollary read_binary_json_type_returns_or_raises
  (K : JsonbConstants) (document : bytes) (t length : Z) :
  exists w',
    (exists v,
        read_binary_json_type (List.length document) t length
          {| payload := document; point := 1 |} = (Ok v, w'))
    \/ (exists e,
           read_binary_json_type (List.length document) t length
             {| payload := document; point := 1 |} = (Raise e, w')).
Proof.
  destruct (read_binary_json_type (List.length document) t length
              {| payload := document; point := 1 |}) as [r w'] eqn:E.
  exists w'.
  destruct (read_binary_json_type_enough_fuel document (List.length document)
              1 t length ltac:(lia) ltac:(lia)
              {| payload := document; point := 1 |}
              ltac:(split; cbn [payload point]; [reflexivity | lia])
              _ _ E) as [Hr _].
  destruct r as [v | e |]; [left | right | congruence]; eauto.
Qed.

(* ================================================================= *)
(** * Little-endian integers: [read_uint_by_size], [read_int24] *)

Section read_uint.
Context {St : Type} `{StructMysql St}.

(** Runs a read whose outcome is known and the unpacking of what it read. *)
Ltac run_read_unpack R :=
  rewrite (bind_Ok _ _ _ _ _ R); unfold struct.unpack;
  cbn [List.length calcsize fold_right size_of Nat.add Nat.eqb];
  rewrite bind_lift_Ok; cbn [fields firstn skipn size_of];
  unfold item; cbn [nth_error]; rewrite !bind_lift_Ok;
  unfold decode; cbn [signed];
  rewrite ?uint_le_cons, ?uint_le_nil, ?Z.shiftl_mul_pow2 by lia;
  unfold ret.

Lemma read_uint24_value (st st' : St) (a b c : byte) :
  read 3 st = (Ok [a; b; c], st') ->
  read_uint24 st = (Ok (uint_le [a; b; c]), st').
Proof.
  intros R. unfold read_uint24. run_read_unpack R. do 2 f_equal. lia.
Qed.

Lemma read_uint40_value (st st' : St) (b0 b1 b2 b3 b4 : byte) :
  read 5 st = (Ok [b0; b1; b2; b3; b4], st') ->
  read_uint40 st = (Ok (uint_le [b0; b1; b2; b3; b4]), st').
Proof.
  intros R. unfold read_uint40. run_read_unpack R. do 2 f_equal. lia.
Qed.

Lemma read_uint48_value (st st' : St) (b0 b1 b2 b3 b4 b5 : byte) :
  read 6 st = (Ok [b0; b1; b2; b3; b4; b5], st') ->
  read_uint48 st = (Ok (uint_le [b0; b1; b2; b3; b4; b5]), st').
Proof.
  intros R. unfold read_uint48. run_read_unpack R. do 2 f_equal. lia.
Qed.

Lemma read_uint56_value (st st' : St) (b0 b1 b2 b3 b4 b5 b6 : byte) :
  read 7 st = (Ok [b0; b1; b2; b3; b4; b5; b6], st') ->
  read_uint56 st = (Ok (uint_le [b0; b1; b2; b3; b4; b5; b6]), st').
Proof.
  intros R. unfold read_uint56. run_read_unpack R. do 2 f_equal. lia.
Qed.

(** A read of the size of an unsigned format, unpacked in that format, least
    significant byte first. *)
Lemma read_unpack_unsigned (n : nat) (f : code) (st st' : St) (data : bytes) :
  read n st = (Ok data, st') -> List.length data = size_of f ->
  signed f = false ->
  (data <- read n ;; unpack_first LittleEndian f data) st
  = (Ok (uint_le data), st').
Proof.
  intros R L S. rewrite (bind_Ok _ _ _ _ _ R).
  rewrite unpack_first_exact by exact L. unfold decode. now rewrite S.
Qed.

Lemma read_uint_by_size_in_range (size : nat) (st st' : St) (data : bytes) :
  read size st = (Ok data, st') ->
  List.length data = size ->
  (1 <= size <= 8)%nat ->
  read_uint_by_size size st = (Ok (Some (uint_le data)), st').
Proof.
  intros R L Hsize.
  assert (C : (size = 1 \/ size = 2 \/ size = 3 \/ size = 4 \/ size = 5
               \/ size = 6 \/ size = 7 \/ size = 8)%nat) by lia.
  destruct C as [-> | [-> | [-> | [-> | [-> | [-> | [-> | ->]]]]]]];
    cbn [read_uint_by_size]; unfold bind at 1.
  - unfold read_uint8.
    now rewrite (read_unpack_unsigned 1 fB _ _ _ R L eq_refl).
  - unfold read_uint16.
    now rewrite (read_unpack_unsigned 2 fH _ _ _ R L eq_refl).
  - destruct data as [| a [| b [| c [| ? ?]]]]; try discriminate L.
    now rewrite (read_uint24_value _ _ _ _ _ R).
  - unfold read_uint32.
    now rewrite (read_unpack_unsigned 4 fI _ _ _ R L eq_refl).
  - destruct data as [| b0 [| b1 [| b2 [| b3 [| b4 [| ? ?]]]]]];
      try discriminate L.
    now rewrite (read_uint40_value _ _ _ _ _ _ _ R).
  - destruct data as [| b0 [| b1 [| b2 [| b3 [| b4 [| b5 [| ? ?]]]]]]];
      try discriminate L.
    now rewrite (read_uint48_value _ _ _ _ _ _ _ _ R).
  - destruct data as [| b0 [| b1 [| b2 [| b3 [| b4 [| b5 [| b6 [| ? ?]]]]]]]];
      try discriminate L.
    now rewrite (read_uint56_value _ _ _ _ _ _ _ _ _ R).
  - unfold read_uint64.
    now rewrite (read_unpack_unsigned 8 fQ _ _ _ R L eq_refl).
Qed.

Lemma read_uint_by_size_out_of_range (n : nat) (s : St) :
  (n = 0 \/ 8 < n)%nat -> read_uint_by_size n s = (Ok None, s).
Proof.
  intros Hn.
  do 9 (destruct n as [| n]; [try reflexivity; lia |]). reflexivity.
Qed.

(** X3. For each of the sizes 1 to 8, when the cursor hands over that many bytes,
    [read_uint_by_size] returns their unsigned value, least significant byte
    first, and leaves the cursor where the read left it. For any other size
    it reads nothing and returns [None]. *)
Theorem read_uint_by_size_little_endian
  (size : nat) (st st' : St) (data : bytes) :
  read size st = (Ok data, st') ->
  List.length data = size ->
  ((1 <= size <= 8)%nat ->
   read_uint_by_size size st = (Ok (Some (uint_le data)), st'))
  /\ (forall (n : nat) (s : St),
         (n = 0 \/ 8 < n)%nat -> read_uint_by_size n s = (Ok None, s)).
Proof.
  intros R L. split.
  - now apply read_uint_by_size_in_range.
  - apply read_uint_by_size_out_of_range.
Qed.

(** X4. [read_int24] returns the three bytes read as a signed number, least
    significant byte first, the sign taken at bit 23. *)
Theorem read_int24_sign_extends (st st' : St) (a b c : byte) :
  read 3 st = (Ok [a; b; c], st') ->
  read_int24 st = (Ok (to_signed 3 (uint_le [a; b; c])), st').
Proof.
  intros R. unfold read_int24.
  rewrite (bind_Ok _ _ _ _ _ R). unfold struct.unpack.
  cbn [List.length calcsize fold_right size_of Nat.add Nat.eqb].
  rewrite bind_lift_Ok. cbn [fields firstn skipn size_of].
  unfold item. cbn [nth_error]. rewrite !bind_lift_Ok.
  unfold decode. cbn [signed]. rewrite !uint_le_cons, !uint_le_nil.
  rewrite !Z.mul_0_r, !Z.add_0_r.
  pose proof (byte2Z_range a). pose proof (byte2Z_range b).
  pose proof (byte2Z_range c).
  rewrite (Z.lor_comm (byte2Z a)), (lor_shiftl_low (byte2Z b) (byte2Z a) 8)
    by lia.
  rewrite Z.lor_comm, lor_shiftl_low by lia.
  unfold ret, to_signed. do 2 f_equal.
  change (2 ^ (8 * Z.of_nat 3 - 1)) with 8388608.
  change (2 ^ (8 * Z.of_nat 3)) with 16777216.
  replace (byte2Z c * 2 ^ 16 + (byte2Z b * 2 ^ 8 + byte2Z a))
    with (byte2Z a + 256 * (byte2Z b + 256 * byte2Z c)) by lia.
  reflexivity.
Qed.

(** X5. A Pascal-style string: when the cursor hands over the [size] bytes of
    the length, for a size from 1 to 8, the string is what the next read, of
    that many bytes, returns. For any other size nothing is read and the call
    of [read] on [None] raises [TypeError]. *)
Theorem read_length_coded_pascal_string_reads_length_then_data
  (size : nat) (st st' : St) (data : bytes) :
  read size st = (Ok data, st') ->
  List.length data = size ->
  ((1 <= size <= 8)%nat ->
   read_length_coded_pascal_string size st
   = read (Z.to_nat (uint_le data)) st')
  /\ (forall (n : nat) (s : St),
         (n = 0 \/ 8 < n)%nat ->
         read_length_coded_pascal_string n s = (Raise TypeError, s)).
Proof.
  intros R L. split.
  - intros Hsize. unfold read_length_coded_pascal_string.
    now rewrite (bind_Ok _ _ _ _ _ (read_uint_by_size_in_range _ _ _ _ R L Hsize)).
  - intros n s Hn. unfold read_length_coded_pascal_string.
    now rewrite (bind_Ok _ _ _ _ _ (read_uint_by_size_out_of_range n s Hn)).
Qed.

End read_uint.

(* ================================================================= *)
(** * Strings with a length of seven bits a byte *)

Lemma land_0x7f_range (b : byte) : 0 <= Z.land (byte2Z b) 0x7f < 128.
Proof.
  change 0x7f with (Z.ones 7). rewrite Z.land_ones by lia.
  apply Z.mod_pos_bound. lia.
Qed.

(** Seven more bits put over an accumulated length. *)
Lemma lor_next_group (acc x bits : Z) :
  0 <= bits -> 0 <= acc < 2 ^ bits ->
  Z.lor acc (Z.shiftl x bits) = acc + 2 ^ bits * x.
Proof.
  intros Hb Hacc. rewrite Z.lor_comm, lor_shiftl_low by assumption. lia.
Qed.

Section variable_length.
Context {St : Type} `{StructMysql St}.

Lemma delivers_one (st st' : St) (b : byte) :
  delivers st [b] st' -> read 1 st = (Ok [b], st').
Proof.
  intros D. inversion D as [| ? st1 ? ? ? R D']. subst.
  inversion D'. now subst.
Qed.

(** The loop, entered with a byte whose top bit is set, on bytes of which all
    but the last have their top bit set. *)
Lemma read_variable_length_loop_value (init : bytes) (last : byte) :
  forall (st st' : St) (fuel : nat) (byte acc bits : Z),
    delivers st (init ++ [last]) st' ->
    Forall continues init -> ~ continues last ->
    Z.land byte 0x80 <> 0 ->
    0 <= bits -> 0 <= acc < 2 ^ bits ->
    (List.length init < fuel)%nat ->
    read_variable_length_loop fuel byte acc bits st
    = (Ok (acc + 2 ^ bits * varlen_value (init ++ [last])), st').
Proof.
  induction init as [| b init IH];
    intros st st' fuel byte acc bits D Hinit Hlast Hbyte Hbits Hacc Hfuel.
  - cbn [app] in D. apply delivers_one in D.
    destruct fuel as [| fuel]; [cbn [List.length] in Hfuel; lia |].
    cbn [read_variable_length_loop].
    destruct (Z.eqb_spec (Z.land byte 128) 0) as [E | _]; [contradiction |].
    rewrite (bind_Ok _ _ _ _ _ D), byte2int_single, bind_lift_Ok.
    assert (L : Z.land (byte2Z last) 128 = 0).
    { unfold continues in Hlast.
      destruct (Z.eq_dec (Z.land (byte2Z last) 128) 0); [assumption | contradiction]. }
    destruct fuel; cbn [read_variable_length_loop]; rewrite L;
      cbn [Z.eqb]; rewrite lor_next_group by assumption;
      unfold varlen_value, ret; cbn [app fold_right]; do 2 f_equal; ring.
  - cbn [app] in D. inversion D as [| ? st1 ? ? ? R D']. subst.
    inversion Hinit as [| ? ? Hb Hinit']. subst.
    destruct fuel as [| fuel]; [cbn [List.length] in Hfuel; lia |].
    cbn [read_variable_length_loop].
    destruct (Z.eqb_spec (Z.land byte 128) 0) as [E | _]; [contradiction |].
    rewrite (bind_Ok _ _ _ _ _ R), byte2int_single, bind_lift_Ok.
    rewrite lor_next_group by assumption.
    pose proof (land_0x7f_range b) as Hx.
    rewrite (IH st1 st' fuel (byte2Z b) _ (bits + 7) D' Hinit' Hlast Hb).
    + unfold varlen_value. cbn [app fold_right].
      rewrite Z.pow_add_r by lia. do 2 f_equal.
      change (2 ^ 7) with 128. ring.
    + lia.
    + rewrite Z.pow_add_r by lia. change (2 ^ 7) with 128. nia.
    + cbn [List.length] in Hfuel. lia.
Qed.

(** X6. The length of a string is spelled seven bits a byte, the low bits first,
    by bytes whose top bit is set and a last byte whose top bit is clear; the
    string is what the read of that many bytes returns after them. *)
Theorem read_variable_length_string_value
  (init : bytes) (last : byte) (st st' : St) (fuel : nat) :
  delivers st (init ++ [last]) st' ->
  Forall continues init -> ~ continues last ->
  (List.length init < fuel)%nat ->
  read_variable_length_string fuel st
  = read (Z.to_nat (varlen_value (init ++ [last]))) st'.
Proof.
  intros D Hinit Hlast Hfuel. unfold read_variable_length_string.
  rewrite (bind_Ok _ _ _ _ _
             (read_variable_length_loop_value init last st st' fuel 128 0 0
                D Hinit Hlast ltac:(discriminate) ltac:(lia) ltac:(lia) Hfuel)).
  do 2 f_equal. lia.
Qed.

Lemma byte2int_empty : byte2int [] = Raise struct_error.
Proof. reflexivity. Qed.

Lemma read_variable_length_loop_unfinished (init : bytes) :
  forall (st st1 st2 : St) (fuel : nat) (byte acc bits : Z),
    delivers st init st1 ->
    Forall continues init ->
    read 1 st1 = (Ok [], st2) ->
    Z.land byte 0x80 <> 0 ->
    (List.length init < fuel)%nat ->
    read_variable_length_loop fuel byte acc bits st = (Raise struct_error, st2).
Proof.
  induction init as [| b init IH];
    intros st st1 st2 fuel byte acc bits D Hinit Hend Hbyte Hfuel;
    (destruct fuel as [| fuel]; [cbn [List.length] in Hfuel; lia |]);
    cbn [read_variable_length_loop];
    (destruct (Z.eqb_spec (Z.land byte 128) 0) as [E | _]; [contradiction |]).
  - inversion D. subst.
    now rewrite (bind_Ok _ _ _ _ _ Hend), byte2int_empty.
  - inversion D as [| ? st' ? ? ? R D']. subst.
    inversion Hinit as [| ? ? Hb Hinit']. subst.
    rewrite (bind_Ok _ _ _ _ _ R), byte2int_single, bind_lift_Ok.
    apply (IH st' st1 st2); try assumption.
    cbn [List.length] in Hfuel. lia.
Qed.

(** X7. A length that does not end: when every byte the cursor hands over has
    its top bit set and the cursor then has no byte left, the decoder raises
    [struct.error]. The number of bytes of a length has no bound of its own. *)
Theorem read_variable_length_string_unfinished_length
  (init : bytes) (st st1 st2 : St) (fuel : nat) :
  delivers st init st1 ->
  Forall continues init ->
  read 1 st1 = (Ok [], st2) ->
  (List.length init < fuel)%nat ->
  read_variable_length_string fuel st = (Raise struct_error, st2).
Proof.
  intros D Hinit Hend Hfuel. unfold read_variable_length_string.
  apply bind_Raise.
  apply (read_variable_length_loop_unfinished init st st1 st2); try assumption.
  discriminate.
Qed.

End variable_length.

(* ================================================================= *)
(** * The payload cursor: [WrapperPayload.read], [advance], [rewind] *)

Lemma firstn_add_skipn {A : Type} (a b : nat) (l : list A) :
  firstn a l ++ firstn b (skipn a l) = firstn (a + b) l.
Proof.
  revert l. induction a as [| a IH]; intros l.
  - reflexivity.
  - destruct l as [| x l]; cbn [firstn skipn Nat.add app].
    + now rewrite firstn_nil.
    + now rewrite IH.
Qed.

(** X9. [rewind(size)] takes back a [read(size)] or an [advance(size)]: the
    cursor is where it was, so that the same bytes are read again. *)
Theorem rewind_takes_back_read_and_advance (size : nat) (w : WrapperPayload) :
  (WrapperPayload_advance size ;;; WrapperPayload_rewind size) w = (Ok tt, w)
  /\ (data <- WrapperPayload_read size ;;
      WrapperPayload_rewind size ;;; ret data) w
     = (Ok (py_slice (payload w) (point w) (point w + Z.of_nat size)), w).
Proof.
  split.
  - unfold WrapperPayload_advance, WrapperPayload_rewind, bind, get_point,
      set_point. cbn [payload point]. rewrite Z.add_simpl_r. now destruct w.
  - rewrite (bind_Ok _ _ _ _ _ (WrapperPayload_read_eq size w)).
    unfold WrapperPayload_rewind, bind, get_point, set_point, ret.
    cbn [payload point]. rewrite Z.add_simpl_r. now destruct w.
Qed.

(** X10. Two reads in a row return the two parts of what one read of both sizes
    returns, from a position that is not negative. *)
Theorem consecutive_reads_split_one_read (a b : nat) (w : WrapperPayload) :
  0 <= point w ->
  exists first second whole w',
    (x <- WrapperPayload_read a ;; y <- WrapperPayload_read b ;; ret (x, y)) w
    = (Ok (first, second), w')
    /\ WrapperPayload_read (a + b) w = (Ok whole, w')
    /\ first ++ second = whole.
Proof.
  intros Hp.
  rewrite (bind_Ok _ _ _ _ _ (WrapperPayload_read_eq a w)).
  rewrite (bind_Ok _ _ _ _ _ (WrapperPayload_read_eq b _)).
  rewrite WrapperPayload_read_eq. cbn [payload point ret].
  do 4 eexists. split; [reflexivity |]. split.
  - do 2 f_equal. lia.
  - rewrite !py_slice_from by lia.
    replace (Z.to_nat (point w + Z.of_nat a)) with (a + Z.to_nat (point w))%nat
      by lia.
    rewrite <- skipn_skipn. apply firstn_add_skipn.
Qed.

(* ================================================================= *)
(** * The cursor with push-back: how the buffer is drained *)

Section buffer_facts.
Context {P : Type} `{Packet P}.

(** X11. [read(size)] takes from the buffer first. While the buffer holds [size]
    bytes it serves them and the packet is not asked; when it holds fewer, it
    is emptied and the packet is asked for the rest, which comes after the
    buffered bytes; and when the packet then raises, the bytes that were in
    the buffer are gone. In every case the counter has moved by [size]. *)
Theorem read_drains_buffer_then_packet
  (size : nat) (self : BinLogPacketWrapper P) :
  data_buffer self <> [] ->
  ((size <= List.length (data_buffer self))%nat ->
   exists self',
     BinLogPacketWrapper_read size self
     = (Ok (firstn size (data_buffer self)), self')
     /\ data_buffer self' = skipn size (data_buffer self)
     /\ packet self' = packet self
     /\ read_bytes self' = read_bytes self + Z.of_nat size)
  /\ ((List.length (data_buffer self) < size)%nat ->
      forall r p',
        packet_read (size - List.length (data_buffer self)) (packet self)
        = (r, p') ->
        exists self',
          BinLogPacketWrapper_read size self
          = (match r with
             | Ok rest => Ok (data_buffer self ++ rest)
             | Raise e => Raise e
             | OutOfFuel => OutOfFuel
             end, self')
          /\ data_buffer self' = []
          /\ packet self' = p'
          /\ read_bytes self' = read_bytes self + Z.of_nat size).
Proof.
  intros Hbuf.
  assert (Hlen : (0 <? List.length (data_buffer self))%nat = true).
  { destruct (data_buffer self); [contradiction | reflexivity]. }
  split.
  - intros Hsize. eexists.
    unfold BinLogPacketWrapper_read, bind, add_read_bytes, get_data_buffer,
      set_data_buffer, on_packet, ret.
    cbn [read_bytes data_buffer packet]. rewrite Hlen.
    rewrite length_firstn, Nat.min_l, Nat.eqb_refl by exact Hsize.
    split; [reflexivity |]. cbn [read_bytes data_buffer packet]. repeat split.
  - intros Hsize r p' R. eexists.
    unfold BinLogPacketWrapper_read, bind, add_read_bytes, get_data_buffer,
      set_data_buffer, on_packet, ret.
    cbn [read_bytes data_buffer packet]. rewrite Hlen.
    rewrite firstn_all2 by lia.
    destruct (Nat.eqb_spec (List.length (data_buffer self)) size); [lia |].
    cbn [read_bytes data_buffer packet]. rewrite R.
    rewrite skipn_all2 by lia.
    destruct r; (split; [reflexivity |]);
      cbn [read_bytes data_buffer packet]; repeat split.
Qed.

(** X12. [advance(size)] leaves the wrapper as [read(size)] does, when skipping in
    the wrapped packet leaves it as reading from it does. *)
Theorem advance_is_read_without_the_data
  (size : nat) (self : BinLogPacketWrapper P) :
  (forall n, packet_advance n (packet self)
             = dropped (packet_read n (packet self))) ->
  BinLogPacketWrapper_advance size self
  = dropped (BinLogPacketWrapper_read size self).
Proof.
  intros Hagree.
  unfold BinLogPacketWrapper_advance, BinLogPacketWrapper_read, bind,
    add_read_bytes, get_data_buffer, set_data_buffer, on_packet, ret.
  cbn [read_bytes data_buffer packet].
  destruct (0 <? List.length (data_buffer self))%nat.
  - destruct (Nat.ltb_spec (List.length (data_buffer self)) size) as [Hlt | Hge].
    + rewrite firstn_all2 by lia.
      destruct (Nat.eqb_spec (List.length (data_buffer self)) size); [lia |].
      cbn [read_bytes data_buffer packet]. rewrite Hagree.
      destruct (packet_read _ (packet self)) as [[rest | e |] p'];
        reflexivity.
    + rewrite length_firstn, Nat.min_l, Nat.eqb_refl by exact Hge.
      reflexivity.
  - cbn [read_bytes data_buffer packet]. rewrite Hagree.
    destruct (packet_read size (packet self)) as [[rest | e |] p'];
      reflexivity.
Qed.

(** X13. The counter moves before the bytes are fetched: a [read] or an [advance]
    that raises has added its size to the counter all the same. *)
Theorem failed_read_is_counted
  (size : nat) (self self' : BinLogPacketWrapper P) (e : exn) :
  BinLogPacketWrapper_read size self = (Raise e, self')
  \/ BinLogPacketWrapper_advance size self = (Raise e, self') ->
  read_bytes self' = read_bytes self + Z.of_nat size.
Proof.
  intros [E | E].
  - eapply read_adds_size; eassumption.
  - eapply advance_adds_size; eassumption.
Qed.

(** X14. On an empty buffer, [unread(b)] followed by [read(len(b))] returns [b]
    and leaves the wrapper as it was: counter, buffer and packet. *)
Theorem unread_then_read_restores
  (self : BinLogPacketWrapper P) (b : bytes) :
  data_buffer self = [] -> b <> [] ->
  (BinLogPacketWrapper_unread b ;;; BinLogPacketWrapper_read (List.length b))
    self = (Ok b, self).
Proof.
  intros Hbuf Hb.
  destruct self as [rb buf pk ts et si es lp fl].
  cbn [data_buffer] in Hbuf. subst buf.
  assert (Hlen : (0 <? List.length b)%nat = true)
    by (destruct b; [contradiction | reflexivity]).
  unfold BinLogPacketWrapper_unread, BinLogPacketWrapper_read, bind,
    add_read_bytes, get_data_buffer, set_data_buffer, on_packet, ret.
  cbn [read_bytes data_buffer packet timestamp event_type server_id event_size
       log_pos flags app].
  rewrite Hlen, firstn_all, Nat.eqb_refl, skipn_all.
  do 2 f_equal. cbn [read_bytes]. lia.
Qed.

End buffer_facts.

(* ================================================================= *)
(** * Binary JSON: opaque values, unknown tags, slots *)

(** X16. On a [WrapperJson], neither [read_new_decimal] nor [read_opaque] ever
    returns a value: whatever the payload and the position, each raises. *)
Theorem opaque_values_never_decode (length : Z) (w : WrapperPayload) :
  (exists e w', read_new_decimal w = (Raise e, w'))
  /\ (exists e w', read_opaque length w = (Raise e, w')).
Proof.
  split; [apply read_new_decimal_on_WrapperJson_never_returns |].
  unfold read_opaque.
  destruct (WrapperPayload_read_uint8 w) as [[b E] | E].
  - rewrite (bind_Ok _ _ _ _ _ E).
    destruct (_ =? 246).
    + match goal with |- context [bind read_new_decimal ?k ?s] =>
        destruct (read_new_decimal_on_WrapperJson_never_returns s)
          as (e & w' & D)
      end.
      rewrite (bind_Raise _ _ _ _ _ D). eauto.
    + unfold raise. eauto.
  - rewrite (bind_Raise _ _ _ _ _ E). eauto.
Qed.

Section WrapperJson_tags.
Context {K : JsonbConstants}.

(** X17. A type tag that is none of the fourteen the decoder knows makes
    [read_binary_json_type] raise [ValueError] and read nothing: the cursor
    is left where it was. *)
Theorem unknown_tag_raises_and_reads_nothing
  (fuel : nat) (t length : Z) (w : WrapperPayload) :
  ~ In t [JSONB_TYPE_SMALL_OBJECT; JSONB_TYPE_LARGE_OBJECT;
          JSONB_TYPE_SMALL_ARRAY; JSONB_TYPE_LARGE_ARRAY;
          JSONB_TYPE_STRING; JSONB_TYPE_LITERAL;
          JSONB_TYPE_INT16; JSONB_TYPE_UINT16; JSONB_TYPE_DOUBLE;
          JSONB_TYPE_INT32; JSONB_TYPE_UINT32;
          JSONB_TYPE_INT64; JSONB_TYPE_UINT64; JSONB_TYPE_OPAQUE] ->
  read_binary_json_type fuel t length w
  = (Raise (ValueError ("Json type " ++ py_str t ++ " is not handled")), w).
Proof.
  intros Hnot.
  match type of Hnot with ~ In _ ?l =>
    assert (E : forall x, In x l -> (t =? x) = false)
  end.
  { intros x Hx. apply Z.eqb_neq. intros ->. exact (Hnot Hx). }
  destruct fuel; cbn [read_binary_json_type];
    unfold read_binary_json_type_body;
    repeat (rewrite E
              by (cbn [In]; repeat first [left; reflexivity | right]));
    reflexivity.
Qed.

(** X18. The bytes a slot of the value table takes when it is read. In the small
    format every slot takes three bytes. In the large format a slot takes
    five bytes, except a slot tagged as a 16-bit integer, which takes three:
    its inlined value is read on two bytes. *)
Theorem slot_width
  (large : bool) (w w' : WrapperPayload) (t : Z) (off : option Z) (v : json) :
  read_offset_or_inline large w = (Ok (t, off, v), w') ->
  payload w' = payload w
  /\ point w' - point w
     = (if large
        then if ((t =? JSONB_TYPE_INT16) || (t =? JSONB_TYPE_UINT16))
                && negb (t =? JSONB_TYPE_LITERAL)
             then 3 else 5
        else 3).
Proof.
  intros E. unfold read_offset_or_inline in E.
  apply bind_Ok_inv in E. destruct E as (t0 & w1 & E1 & E).
  apply WrapperPayload_read_unpack_state in E1. subst w1.
  assert (Step : forall (n : nat) (f : code) (k : Z -> json) s x s',
             (y <- (data <- read n ;; unpack_first LittleEndian f data) ;;
              ret (k y)) s = (Ok x, s') ->
             s' = {| payload := payload s; point := point s + Z.of_nat n |}).
  { intros n f k s x s' B. apply bind_Ok_inv in B.
    destruct B as (y & s1 & B1 & B2).
    apply WrapperPayload_read_unpack_state in B1. cbn [ret] in B2.
    inversion B2. congruence. }
  assert (Inl : forall s x s',
             read_binary_json_type_inlined t0 large s = (Ok x, s') ->
             s' = {| payload := payload s;
                     point := point s
                              + (if t0 =? JSONB_TYPE_LITERAL
                                 then if large then 4 else 2
                                 else if (t0 =? JSONB_TYPE_INT16)
                                         || (t0 =? JSONB_TYPE_UINT16)
                                      then 2
                                      else if (t0 =? JSONB_TYPE_INT32)
                                              || (t0 =? JSONB_TYPE_UINT32)
                                           then 4 else 8) |}).
  { intros s x s' B. unfold read_binary_json_type_inlined in B.
    destruct (t0 =? JSONB_TYPE_LITERAL).
    - apply bind_Ok_inv in B. destruct B as (y & s1 & B1 & _B2).
      assert (s1 = {| payload := payload s;
                      point := point s + (if large then 4 else 2) |}).
      { destruct large; apply WrapperPayload_read_unpack_state in B1;
          exact B1. }
      subst s1.
      destruct (y =? JSONB_LITERAL_NULL);
        [cbn [ret] in _B2; inversion _B2; reflexivity |].
      destruct (y =? JSONB_LITERAL_TRUE);
        [cbn [ret] in _B2; inversion _B2; reflexivity |].
      destruct (y =? JSONB_LITERAL_FALSE);
        [cbn [ret] in _B2; inversion _B2; reflexivity |].
      discriminate _B2.
    - destruct (t0 =? JSONB_TYPE_INT16); [exact (Step 2%nat _ _ _ _ _ B) |].
      destruct (t0 =? JSONB_TYPE_UINT16); [exact (Step 2%nat _ _ _ _ _ B) |].
      destruct (t0 =? JSONB_TYPE_INT32); [exact (Step 4%nat _ _ _ _ _ B) |].
      destruct (t0 =? JSONB_TYPE_UINT32); [exact (Step 4%nat _ _ _ _ _ B) |].
      destruct (t0 =? JSONB_TYPE_INT64); [exact (Step 8%nat _ _ _ _ _ B) |].
      destruct (t0 =? JSONB_TYPE_UINT64); [exact (Step 8%nat _ _ _ _ _ B) |].
      discriminate B. }
  destruct (t0 =? JSONB_TYPE_LITERAL) eqn:TL;
    destruct (t0 =? JSONB_TYPE_INT16) eqn:T16;
    destruct (t0 =? JSONB_TYPE_UINT16) eqn:TU16;
    destruct (t0 =? JSONB_TYPE_INT32) eqn:T32;
    destruct (t0 =? JSONB_TYPE_UINT32) eqn:TU32;
    destruct large;
    cbn [orb andb negb] in E, Inl;
    (apply bind_Ok_inv in E; destruct E as (y & s1 & B1 & B2);
     cbn [ret] in B2; inversion B2; subst;
     first [ apply Inl in B1
           | apply WrapperPayload_read_unpack_state in B1 ];
     subst; rewrite ?TL, ?T16, ?TU16; cbn [orb andb negb payload point];
     split; [reflexivity | lia]).
Qed.

End WrapperJson_tags.

(* ================================================================= *)
(** * Binary JSON: offsets, position, termination *)

Lemma item_map {A B : Type} (f : A -> B) (l : list A) (i : nat) :
  item (map f l) i = match item l i with
                     | Ok a => Ok (f a)
                     | Raise e => Raise e
                     | OutOfFuel => OutOfFuel
                     end.
Proof.
  unfold item. rewrite nth_error_map. now destruct (nth_error l i).
Qed.

Lemma bind_ext {St A B : Type} (m : M St A) (k k' : A -> M St B) (s : St) :
  (forall a s', k a s' = k' a s') -> bind m k s = bind m k' s.
Proof.
  intros E. unfold bind. destruct (m s) as [[a | e |] s']; auto.
Qed.

Section offsets.
Context {K : JsonbConstants}.
Variable nested : Z -> Z -> M WrapperPayload json.

(** X19. The offsets stored in the value slots are never followed: the loop of
    the object decoder and the array decoder give the same result, from the
    same position, whatever offsets the slots hold. Values are decoded one
    after the other, each where the one before ended. *)
Theorem stored_offsets_are_not_followed (length : Z) :
  (forall keys fields range out w,
      object_fields nested length keys (map forget_offset fields) range out w
      = object_fields nested length keys fields range out w)
  /\ (forall slots w,
         mapM (array_read nested length) (map forget_offset slots) w
         = mapM (array_read nested length) slots w).
Proof.
  split.
  - intros keys fields range.
    induction range as [| i range IH]; intros out w; cbn [object_fields].
    + reflexivity.
    + apply bind_ext. intros key w1. rewrite item_map.
      destruct (item fields i) as [[[t [off |]] v] | e |];
        cbn [forget_offset]; try reflexivity;
        rewrite !bind_lift_Ok; apply bind_ext; intros data w2; apply IH.
  - induction slots as [| x slots IH]; intros w; cbn [map mapM].
    + reflexivity.
    + assert (E : array_read nested length (forget_offset x)
                  = array_read nested length x)
        by (destruct x as [[t [off |]] v]; reflexivity).
      rewrite E. apply bind_ext. intros y w1.
      unfold bind. now rewrite IH.
Qed.

End offsets.

(** X20. From a position that is not negative, with as much fuel as the payload
    has bytes, [read_binary_json_type] returns a value or raises: containers
    cannot nest deeper than the payload is long. It leaves the payload as it
    was and the position where it was or further. *)
Theorem decoding_ends_and_moves_forward
  (K : JsonbConstants) (t length : Z) (w w' : WrapperPayload)
  (r : outcome json) :
  0 <= point w ->
  read_binary_json_type (List.length (payload w)) t length w = (r, w') ->
  r <> OutOfFuel /\ payload w' = payload w /\ point w <= point w'.
Proof.
  intros Hp E.
  destruct (read_binary_json_type_enough_fuel (payload w)
              (List.length (payload w)) (point w) t length Hp ltac:(lia)
              w (conj eq_refl (Z.le_refl _)) _ _ E) as [Hr [Hpl Hpt]].
  auto.
Qed.

(* ================================================================= *)
(** * Length-coded integers: the prefixes, and data that ends early *)

Section length_coded_binary_more.
Context {St : Type} `{StructMysql St}.

Lemma read_length_coded_binary_prefix (st st1 : St) (c : byte) :
  read 1 st = (Ok [c], st1) ->
  read_length_coded_binary st
  = (if byte2Z c =? 251 then ret None
     else if byte2Z c <? 251 then ret (Some (byte2Z c))
     else if byte2Z c =? 252 then
       n <- read 2 ;; v <- unpack_uint16 n ;; ret (Some v)
     else if byte2Z c =? 253 then
       n <- read 3 ;; v <- unpack_int24 n ;; ret (Some v)
     else if byte2Z c =? 254 then
       n <- read 8 ;; v <- unpack_int64 n ;; ret (Some v)
     else ret None) st1.
Proof.
  intros R. unfold read_length_coded_binary.
  rewrite (bind_Ok _ _ _ _ _ R), byte2int_single, bind_lift_Ok.
  reflexivity.
Qed.

(** X1. What the prefix of a length-coded integer selects: below 0xFB the prefix
    is the value; 0xFB, and 0xFF as well, give [None] and nothing more is
    read; 0xFC and 0xFD give the value of the next two and three bytes, least
    significant byte first. *)
Theorem length_coded_binary_prefixes (st st1 : St) (c : byte) :
  read 1 st = (Ok [c], st1) ->
  (byte2Z c < 251 ->
   read_length_coded_binary st = (Ok (Some (byte2Z c)), st1))
  /\ (byte2Z c = 251 \/ byte2Z c = 255 ->
      read_length_coded_binary st = (Ok None, st1))
  /\ (byte2Z c = 252 ->
      forall b0 b1 st2,
        read 2 st1 = (Ok [b0; b1], st2) ->
        read_length_coded_binary st = (Ok (Some (uint_le [b0; b1])), st2))
  /\ (byte2Z c = 253 ->
      forall b0 b1 b2 st2,
        read 3 st1 = (Ok [b0; b1; b2], st2) ->
        read_length_coded_binary st
        = (Ok (Some (uint_le [b0; b1; b2])), st2)).
Proof.
  intros R.
  destruct (read_length_coded_binary_cases st st1 c R)
    as (Hnull & Hsmall & H2 & H3 & _).
  repeat split.
  - exact Hsmall.
  - intros [C | C]; [now apply Hnull |].
    rewrite (read_length_coded_binary_prefix _ _ _ R), C. reflexivity.
  - intros C b0 b1 st2 R2. rewrite (H2 C b0 b1 st2 R2).
    rewrite !uint_le_cons, uint_le_nil. do 3 f_equal. lia.
  - intros C b0 b1 b2 st2 R2. rewrite (H3 C b0 b1 b2 st2 R2).
    rewrite !uint_le_cons, uint_le_nil. do 3 f_equal. lia.
Qed.

(** X2. When the cursor hands over fewer bytes than asked for, as the payload
    cursor does at the end of a payload: after 0xFC the decoder raises
    [struct.error]; after 0xFD it raises [IndexError]; after 0xFE it raises
    [IndexError] when fewer than five bytes came, and with five bytes or more
    it returns the value of the first five. *)
Theorem length_coded_binary_on_short_data (st st1 st2 : St) (c : byte)
  (n : bytes) :
  read 1 st = (Ok [c], st1) ->
  (byte2Z c = 252 -> read 2 st1 = (Ok n, st2) -> (List.length n < 2)%nat ->
   read_length_coded_binary st = (Raise struct_error, st2))
  /\ (byte2Z c = 253 -> read 3 st1 = (Ok n, st2) -> (List.length n < 3)%nat ->
      read_length_coded_binary st = (Raise IndexError, st2))
  /\ (byte2Z c = 254 -> read 8 st1 = (Ok n, st2) ->
      ((List.length n < 5)%nat ->
       read_length_coded_binary st = (Raise IndexError, st2))
      /\ ((5 <= List.length n)%nat ->
          read_length_coded_binary st
          = (Ok (Some (uint_le (firstn 5 n))), st2))).
Proof.
  intros R. rewrite (read_length_coded_binary_prefix _ _ _ R).
  repeat split.
  - intros C R2 L. rewrite C. cbn [Z.eqb Z.ltb Z.compare Pos.compare
      Pos.compare_cont Pos.eqb].
    rewrite (bind_Ok _ _ _ _ _ R2). unfold unpack_uint16.
    assert (E : py_slice n 0 2 = n).
    { destruct n as [| a [| b n]]; [reflexivity | reflexivity |].
      cbn [List.length] in L. lia. }
    unfold bind at 1. rewrite unpack_first_wrong_size; [reflexivity |].
    rewrite E. cbn [size_of]. lia.
  - intros C R2 L. rewrite C. cbn [Z.eqb Z.ltb Z.compare Pos.compare
      Pos.compare_cont Pos.eqb].
    rewrite (bind_Ok _ _ _ _ _ R2).
    destruct n as [| a [| b [| c0 n]]]; cbn [List.length] in L; try lia;
      reflexivity.
  - intros L. rewrite H0. cbn [Z.eqb Z.ltb Z.compare Pos.compare
      Pos.compare_cont Pos.eqb].
    rewrite (bind_Ok _ _ _ _ _ H1).
    destruct n as [| b0 [| b1 [| b2 [| b3 [| b4 n]]]]];
      cbn [List.length] in L; try lia; reflexivity.
  - intros L. rewrite H0. cbn [Z.eqb Z.ltb Z.compare Pos.compare
      Pos.compare_cont Pos.eqb].
    rewrite (bind_Ok _ _ _ _ _ H1).
    destruct n as [| b0 [| b1 [| b2 [| b3 [| b4 n]]]]];
      cbn [List.length] in L; try lia.
    unfold unpack_int64, bind, lift, ret. cbn [item nth_error firstn].
    rewrite !uint_le_cons, uint_le_nil, !Z.shiftl_mul_pow2 by lia.
    do 3 f_equal. lia.
Qed.

End length_coded_binary_more.

(* ================================================================= *)
(** * The event header: what [__init__] needs *)

(** X15. [__init__] builds no wrapper unless the packet hands over exactly 20
    bytes: an exception of the packet's [read] comes out as it is, and a
    header of another length makes [struct.unpack] raise [struct.error]. *)
Theorem init_needs_twenty_bytes
  (P : Type) (PK : Packet P) (from_packet p' : P) (use_checksum : bool)
  (r : outcome bytes) :
  packet_read 20 from_packet = (r, p') ->
  match r with
  | Ok header =>
      List.length header <> 20%nat ->
      BinLogPacketWrapper_init from_packet use_checksum = Raise struct_error
  | Raise e => BinLogPacketWrapper_init from_packet use_checksum = Raise e
  | OutOfFuel => BinLogPacketWrapper_init from_packet use_checksum = OutOfFuel
  end.
Proof.
  intros R. unfold BinLogPacketWrapper_init, bind. rewrite R.
  destruct r as [header | e |]; try reflexivity.
  intros L. unfold lift, struct.unpack.
  apply Nat.eqb_neq in L.
  cbn [calcsize fold_right size_of Nat.add]. now rewrite L.
Qed.

(* ================================================================= *)
(** * The properties above on data *)

(** In its data, the in-memory packet skips as it reads. *)
Lemma ListPacket_advance_agrees (p : ListPacket) (n : nat) :
  (position p <= List.length (packet_data p))%nat ->
  packet_advance n p = dropped (packet_read n p).
Proof.
  intros Hpos. cbn [packet_advance packet_read ListPacket_Packet].
  unfold ListPacket_advance, ListPacket_read.
  rewrite length_firstn, length_skipn.
  destruct (Nat.leb_spec (position p + n) (List.length (packet_data p)));
    destruct (Nat.eqb_spec
                (Nat.min n (List.length (packet_data p) - position p)) n);
    try reflexivity; lia.
Qed.

Lemma length_coded_binary_prefixes_witness :
  read_length_coded_binary (WrapperPayload_init [xfc; x01; x02])
  = (Ok (Some (uint_le [x01; x02])),
     {| payload := [xfc; x01; x02]; point := 3 |}).
Proof.
  refine (proj1 (proj2 (proj2
            (length_coded_binary_prefixes
               (WrapperPayload_init [xfc; x01; x02])
               {| payload := [xfc; x01; x02]; point := 1 |} xfc _)))
            _ x01 x02 _ _); reflexivity.
Defined.

Lemma length_coded_binary_on_short_data_witness :
  read_length_coded_binary
    (WrapperPayload_init [xfe; x01; x00; x00; x00; x00])
  = (Ok (Some (uint_le (firstn 5 [x01; x00; x00; x00; x00]))),
     {| payload := [xfe; x01; x00; x00; x00; x00]; point := 9 |}).
Proof.
  refine (proj2 (proj2 (proj2
            (length_coded_binary_on_short_data
               (WrapperPayload_init [xfe; x01; x00; x00; x00; x00])
               {| payload := [xfe; x01; x00; x00; x00; x00]; point := 1 |}
               {| payload := [xfe; x01; x00; x00; x00; x00]; point := 9 |}
               xfe [x01; x00; x00; x00; x00] _)) _ _) _).
  - reflexivity.
  - reflexivity.
  - reflexivity.
  - cbn [List.length]. lia.
Defined.

Lemma read_uint_by_size_little_endian_witness :
  read_uint_by_size 5 (WrapperPayload_init [x01; x02; x03; x04; x05])
  = (Ok (Some (uint_le [x01; x02; x03; x04; x05])),
     {| payload := [x01; x02; x03; x04; x05]; point := 5 |}).
Proof.
  refine (proj1 (read_uint_by_size_little_endian
                   5 (WrapperPayload_init [x01; x02; x03; x04; x05])
                   {| payload := [x01; x02; x03; x04; x05]; point := 5 |}
                   [x01; x02; x03; x04; x05] _ _) _).
  - reflexivity.
  - reflexivity.
  - lia.
Defined.

Lemma read_int24_sign_extends_witness :
  read_int24 (WrapperPayload_init [xfe; xff; xff])
  = (Ok (to_signed 3 (uint_le [xfe; xff; xff])),
     {| payload := [xfe; xff; xff]; point := 3 |}).
Proof.
  apply (read_int24_sign_extends (WrapperPayload_init [xfe; xff; xff])).
  reflexivity.
Defined.

Lemma read_length_coded_pascal_string_reads_length_then_data_witness :
  read_length_coded_pascal_string 1 (WrapperPayload_init [x03; x63; x61; x74])
  = read (Z.to_nat (uint_le [x03]))
      {| payload := [x03; x63; x61; x74]; point := 1 |}.
Proof.
  refine (proj1 (read_length_coded_pascal_string_reads_length_then_data
                   1 (WrapperPayload_init [x03; x63; x61; x74])
                   {| payload := [x03; x63; x61; x74]; point := 1 |}
                   [x03] _ _) _).
  - reflexivity.
  - reflexivity.
  - lia.
Defined.

Lemma read_variable_length_string_value_witness :
  read_variable_length_string 2 (WrapperPayload_init [xc8; x01; x61; x62])
  = read (Z.to_nat (varlen_value ([xc8] ++ [x01])))
      {| payload := [xc8; x01; x61; x62]; point := 2 |}.
Proof.
  apply (read_variable_length_string_value [xc8] x01
           (WrapperPayload_init [xc8; x01; x61; x62])
           {| payload := [xc8; x01; x61; x62]; point := 2 |} 2).
  - apply (delivers_cons _ {| payload := [xc8; x01; x61; x62]; point := 1 |});
      [reflexivity |].
    apply (delivers_cons _ {| payload := [xc8; x01; x61; x62]; point := 2 |});
      [reflexivity |].
    apply delivers_nil.
  - constructor; [| constructor].
    unfold continues. intros E. vm_compute in E. discriminate E.
  - intros C. apply C. reflexivity.
  - cbn [List.length]. lia.
Defined.

Lemma read_int_be_by_size_8_raises_witness :
  read_int_be_by_size 8
    (WrapperPayload_init [x00; x00; x00; x00; x00; x00; x00; x01])
  = (Raise struct_error,
     {| payload := [x00; x00; x00; x00; x00; x00; x00; x01]; point := 8 |}).
Proof.
  apply (read_int_be_by_size_8_raises
           (WrapperPayload_init [x00; x00; x00; x00; x00; x00; x00; x01])
           _ [x00; x00; x00; x00; x00; x00; x00; x01]).
  - reflexivity.
  - reflexivity.
Defined.

Lemma consecutive_reads_split_one_read_witness :
  exists first second whole w',
    (x <- WrapperPayload_read 2 ;; y <- WrapperPayload_read 2 ;; ret (x, y))
      (WrapperPayload_init [x01; x02; x03])
    = (Ok (first, second), w')
    /\ WrapperPayload_read (2 + 2) (WrapperPayload_init [x01; x02; x03])
       = (Ok whole, w')
    /\ first ++ second = whole.
Proof.
  apply (consecutive_reads_split_one_read 2 2
           (WrapperPayload_init [x01; x02; x03])).
  cbn [point WrapperPayload_init]. lia.
Defined.

Lemma read_drains_buffer_then_packet_witness :
  ((3 <= List.length (data_buffer (buffered_wrapper [x1e])))%nat ->
   exists self',
     BinLogPacketWrapper_read 3 (buffered_wrapper [x1e])
     = (Ok (firstn 3 (data_buffer (buffered_wrapper [x1e]))), self')
     /\ data_buffer self' = skipn 3 (data_buffer (buffered_wrapper [x1e]))
     /\ packet self' = packet (buffered_wrapper [x1e])
     /\ read_bytes self' = read_bytes (buffered_wrapper [x1e]) + Z.of_nat 3)
  /\ ((List.length (data_buffer (buffered_wrapper [x1e])) < 3)%nat ->
      forall r p',
        packet_read (3 - List.length (data_buffer (buffered_wrapper [x1e])))
          (packet (buffered_wrapper [x1e])) = (r, p') ->
        exists self',
          BinLogPacketWrapper_read 3 (buffered_wrapper [x1e])
          = (match r with
             | Ok rest => Ok (data_buffer (buffered_wrapper [x1e]) ++ rest)
             | Raise e => Raise e
             | OutOfFuel => OutOfFuel
             end, self')
          /\ data_buffer self' = []
          /\ packet self' = p'
          /\ read_bytes self' = read_bytes (buffered_wrapper [x1e]) + Z.of_nat 3).
Proof.
  apply (read_drains_buffer_then_packet 3 (buffered_wrapper [x1e])).
  discriminate.
Defined.

Lemma advance_is_read_without_the_data_witness :
  BinLogPacketWrapper_advance 3 (buffered_wrapper [x1e])
  = dropped (BinLogPacketWrapper_read 3 (buffered_wrapper [x1e])).
Proof.
  apply (advance_is_read_without_the_data 3 (buffered_wrapper [x1e])).
  intros n. apply ListPacket_advance_agrees.
  cbn [position packet buffered_wrapper packet_data List.length].
  unfold example_header. cbn [List.length app]. lia.
Defined.

Lemma failed_read_is_counted_witness :
  read_bytes
    {| read_bytes := 1;
       data_buffer := [];
       packet := {| packet_data := example_header ++ []; position := 20 |};
       timestamp := 1600000000;
       event_type := 2;
       server_id := 1;
       event_size := 42;
       log_pos := 1000;
       flags := 0 |}
  = read_bytes (example_wrapper []) + Z.of_nat 1.
Proof.
  apply (failed_read_is_counted 1 (example_wrapper []) _ PacketError).
  left. reflexivity.
Defined.

Lemma unread_then_read_restores_witness :
  (BinLogPacketWrapper_unread [x0a]
   ;;; BinLogPacketWrapper_read (List.length [x0a])) (example_wrapper [x1e])
  = (Ok [x0a], example_wrapper [x1e]).
Proof.
  apply (unread_then_read_restores (example_wrapper [x1e]) [x0a]).
  - reflexivity.
  - discriminate.
Defined.

Lemma unknown_tag_raises_and_reads_nothing_witness :
  read_binary_json_type (K := mysql_jsonb) 3 13 10
    {| payload := [x0d; x00]; point := 1 |}
  = (Raise (ValueError ("Json type " ++ py_str 13 ++ " is not handled")),
     {| payload := [x0d; x00]; point := 1 |}).
Proof.
  apply (unknown_tag_raises_and_reads_nothing (K := mysql_jsonb) 3 13 10).
  cbn. intros Hin.
  repeat (destruct Hin as [Hin | Hin]; [discriminate Hin |]). exact Hin.
Defined.

Lemma slot_width_witness :
  payload {| payload := [x05; x07; x00; x00; x00]; point := 3 |}
  = payload (WrapperPayload_init [x05; x07; x00; x00; x00])
  /\ point {| payload := [x05; x07; x00; x00; x00]; point := 3 |}
     - point (WrapperPayload_init [x05; x07; x00; x00; x00])
     = (if true
        then if ((5 =? JSONB_TYPE_INT16 (JsonbConstants := mysql_jsonb))
                 || (5 =? JSONB_TYPE_UINT16 (JsonbConstants := mysql_jsonb)))
                && negb (5 =? JSONB_TYPE_LITERAL (JsonbConstants := mysql_jsonb))
             then 3 else 5
        else 3).
Proof.
  apply (slot_width (K := mysql_jsonb) true
           (WrapperPayload_init [x05; x07; x00; x00; x00])
           {| payload := [x05; x07; x00; x00; x00]; point := 3 |}
           5 None (JInt 7)).
  reflexivity.
Defined.

Lemma decoding_ends_and_moves_forward_witness :
  Ok (JDict [([x61], JNone); ([x62], JInt 7)]) <> OutOfFuel
  /\ payload {| payload := object_with_bad_field; point := 21 |}
     = payload {| payload := object_with_bad_field; point := 1 |}
  /\ point {| payload := object_with_bad_field; point := 1 |}
     <= point {| payload := object_with_bad_field; point := 21 |}.
Proof.
  apply (decoding_ends_and_moves_forward mysql_jsonb 0 21
           {| payload := object_with_bad_field; point := 1 |}).
  - cbn [point]. lia.
  - reflexivity.
Defined.

Lemma init_needs_twenty_bytes_witness :
  BinLogPacketWrapper_init (packet_of [x00; x01; x02]) false
  = Raise PacketError.
Proof.
  apply (init_needs_twenty_bytes ListPacket ListPacket_Packet
           (packet_of [x00; x01; x02]) (packet_of [x00; x01; x02]) false
           (Raise PacketError)).
  reflexivity.
Defined.

Lemma read_variable_length_string_unfinished_length_witness :
  read_variable_length_string 3 (WrapperPayload_init [xc8; x81])
  = (Raise struct_error, {| payload := [xc8; x81]; point := 3 |}).
Proof.
  apply (read_variable_length_string_unfinished_length [xc8; x81]
           (WrapperPayload_init [xc8; x81])
           {| payload := [xc8; x81]; point := 2 |}).
  - apply (delivers_cons _ {| payload := [xc8; x81]; point := 1 |});
      [reflexivity |].
    apply (delivers_cons _ {| payload := [xc8; x81]; point := 2 |});
      [reflexivity |].
    apply delivers_nil.
  - repeat constructor; unfold continues; intros E; vm_compute in E;
      discriminate E.
  - reflexivity.
  - cbn [List.length]. lia.
Defined.
